(** * Phishing detector: a shallow embedding of [7_anti_phishing.py]

    The development follows the pipeline of [PhishingDetector.analyze_email]:
    field extraction, prompt rendering, the cached remote call with retry,
    recovery of the structured answer, risk scoring and the verdict record.

    Modelling conventions.
    - A Python [str] is a [list ascii]; a character is read as the code point
      of the same number, so the model covers text over code points 0..255.
      On that range the tables below ([isspace], [isword], [lower]) are the
      ones of CPython 3 ([str.isspace], the class [\w] of [re], [str.lower]).
    - The strings of a decoded answer are lists of code points, since the
      escapes of JSON reach every code point; [str.lower] on a character
      above U+00FF and [float] on a string are parameters.
    - A Python [float] is a binary64 [PrimFloat.float]; an [int] is a [Z].
    - [json.loads] is embedded after the scanner of CPython 3.11, with its
      limit of 4300 digits for an int; the number of containers that it may
      enter, one inside the other, before the recursion limit is reached is
      a parameter.
    - The library [re] is embedded as a small backtracking matcher over a
      pattern syntax; each pattern of the source is transcribed as a term.
    - An exception that leaves a function is a value of [pyexn]; the
      detector's mutable fields are threaded through explicitly. *)

From Stdlib Require Import ZArith List Ascii String Floats Lia Bool.
From stdpp Require Import gmap.
Import ListNotations.

#[local] Set Warnings "-register-all,-inexact-float".

Local Open Scope nat_scope.
Local Open Scope list_scope.

(** ** Python strings *)

Module PyStr.

Definition pystr := list ascii.

(** A literal of the source, written as a Rocq string. *)
Definition lit (s : string) : pystr := list_ascii_of_string s.

Definition nl : ascii := ascii_of_nat 10.
Definition dq : ascii := ascii_of_nat 34.
Definition sq : ascii := ascii_of_nat 39.

Definition code (c : ascii) : nat := nat_of_ascii c.

Definition between (lo hi n : nat) : bool := (lo <=? n) && (n <=? hi).

(** [str.isspace] on one character (also the class [\s] of [re]):
    9-13, 28-32, 133 and 160. *)
Definition isspace (c : ascii) : bool :=
  let n := code c in
  between 9 13 n || between 28 32 n || (n =? 133) || (n =? 160).

(** The class [\w] of [re] for [str] patterns: alphanumeric or underscore. *)
Definition isword (c : ascii) : bool :=
  let n := code c in
  between 48 57 n || between 65 90 n || (n =? 95) || between 97 122 n
  || (n =? 170) || between 178 179 n || (n =? 181) || between 185 186 n
  || between 188 190 n || between 192 214 n || between 216 246 n
  || between 248 255 n.

(** [str.lower] on one character. *)
Definition lower_char (c : ascii) : ascii :=
  let n := code c in
  if between 65 90 n || (between 192 222 n && negb (n =? 215))
  then ascii_of_nat (n + 32) else c.

Definition lower (s : pystr) : pystr := map lower_char s.

Fixpoint lstrip (s : pystr) : pystr :=
  match s with
  | c :: s' => if isspace c then lstrip s' else s
  | [] => []
  end.

Definition rstrip (s : pystr) : pystr := rev (lstrip (rev s)).

(** [s.strip()] *)
Definition strip (s : pystr) : pystr := rstrip (lstrip s).

(** [a == b] *)
Fixpoint eqb (a b : pystr) : bool :=
  match a, b with
  | [], [] => true
  | x :: a', y :: b' => Ascii.eqb x y && eqb a' b'
  | _, _ => false
  end.

Fixpoint startswith (p s : pystr) : bool :=
  match p, s with
  | [], _ => true
  | a :: p', b :: s' => Ascii.eqb a b && startswith p' s'
  | _ :: _, [] => false
  end.

(** [p in s] *)
Fixpoint contains (p s : pystr) : bool :=
  startswith p s ||
  match s with
  | [] => false
  | _ :: s' => contains p s'
  end.

(** [s[i:j]] for [0 <= i], [0 <= j]. *)
Definition slice (s : pystr) (i j : nat) : pystr := firstn (j - i) (skipn i s).

End PyStr.
Import PyStr.

(** ** The fragment of [re] used by the detector *)

Module Re.

Inductive regex : Type :=
| RChar (p : ascii -> bool)          (* one character satisfying [p] *)
| REnd                               (* [$] without MULTILINE *)
| REmpty
| RSeq (r1 r2 : regex)
| RAlt (r1 r2 : regex)
| RStar (greedy : bool) (r : regex)  (* [r*] and [r*?] *)
| RGroup (n : nat) (r : regex).      (* capturing group number [n] *)

(** Position in the subject, what is left of it, and the spans captured. *)
Record mstate := MState { pos : nat; rest : pystr; caps : list (nat * (nat * nat)) }.

Definition cont := mstate -> option mstate.

(** [$]: at the end, or just before a newline that ends the subject. *)
Definition at_end (s : pystr) : bool :=
  match s with
  | [] => true
  | [c] => Ascii.eqb c nl
  | _ => false
  end.

(** Iteration of one step, each round consuming at least one character;
    greedy tries one more round first, lazy tries the continuation first. *)
Fixpoint star (greedy : bool) (step : mstate -> cont -> option mstate)
    (fuel : nat) (s : mstate) (k : cont) : option mstate :=
  match fuel with
  | 0 => k s
  | S f =>
    let again (s' : mstate) :=
      if pos s <? pos s' then star greedy step f s' k else None in
    if greedy then
      match step s again with
      | Some x => Some x
      | None => k s
      end
    else
      match k s with
      | Some x => Some x
      | None => step s again
      end
  end.

(** The backtracking matcher, in continuation-passing style. *)
Fixpoint run (r : regex) (s : mstate) (k : cont) : option mstate :=
  match r with
  | RChar p =>
    match rest s with
    | c :: t => if p c then k (MState (S (pos s)) t (caps s)) else None
    | [] => None
    end
  | REnd => if at_end (rest s) then k s else None
  | REmpty => k s
  | RSeq r1 r2 => run r1 s (fun s1 => run r2 s1 k)
  | RAlt r1 r2 =>
    match run r1 s k with
    | Some x => Some x
    | None => run r2 s k
    end
  | RStar g r1 => star g (run r1) (S (length (rest s))) s k
  | RGroup n r1 =>
    run r1 s (fun s1 => k (MState (pos s1) (rest s1) ((n, (pos s, pos s1)) :: caps s1)))
  end.

(** A match object: [m.start()], [m.end()] and the group spans. *)
Record rmatch := RMatch { m_start : nat; m_end : nat; m_caps : list (nat * (nat * nat)) }.

Definition match_at (r : regex) (i : nat) (s : pystr) : option rmatch :=
  match run r (MState i s []) Some with
  | Some e => Some (RMatch i (pos e) (caps e))
  | None => None
  end.

(** [re.search]: the match at the leftmost position that has one. *)
Fixpoint search_from (r : regex) (i : nat) (s : pystr) : option rmatch :=
  match match_at r i s with
  | Some m => Some m
  | None =>
    match s with
    | [] => None
    | _ :: t => search_from r (S i) t
    end
  end.

Definition search (r : regex) (text : pystr) : option rmatch := search_from r 0 text.

Fixpoint span_of (n : nat) (cs : list (nat * (nat * nat))) : option (nat * nat) :=
  match cs with
  | [] => None
  | (j, sp) :: cs' => if n =? j then Some sp else span_of n cs'
  end.

(** [m.group(n)] for a group that took part in the match. *)
Definition group (text : pystr) (m : rmatch) (n : nat) : pystr :=
  match span_of n (m_caps m) with
  | Some (a, b) => slice text a b
  | None => []
  end.

(** [re.sub(r, repl, text)] for a pattern that matches no empty string:
    leftmost matches, left to right, without overlap. *)
Fixpoint sub_from (r : regex) (repl : rmatch -> pystr) (fuel i : nat) (s : pystr)
    : pystr :=
  match fuel with
  | 0 => s
  | S f =>
    match match_at r i s with
    | Some m =>
      if i <? m_end m
      then repl m ++ sub_from r repl f (m_end m) (skipn (m_end m - i) s)
      else match s with
           | [] => repl m
           | c :: t => repl m ++ c :: sub_from r repl f (S i) t
           end
    | None =>
      match s with
      | [] => []
      | c :: t => c :: sub_from r repl f (S i) t
      end
    end
  end.

Definition sub (r : regex) (repl : pystr -> rmatch -> pystr) (text : pystr) : pystr :=
  sub_from r (repl text) (S (length text)) 0 text.

(** Pattern syntax. *)
Definition chr (c : ascii) : regex := RChar (Ascii.eqb c).
(** A literal under [re.I]. *)
Definition chr_i (c : ascii) : regex :=
  RChar (fun x => Ascii.eqb (lower_char x) (lower_char c)).
Definition dot : regex := RChar (fun x => negb (Ascii.eqb x nl)).
Definition cls_s : regex := RChar isspace.
Definition cls_w : regex := RChar isword.
(** [[\s\S]] *)
Definition cls_any : regex := RChar (fun x => isspace x || negb (isspace x)).
Definition plus (r : regex) : regex := RSeq r (RStar true r).

Fixpoint word_i (w : pystr) : regex :=
  match w with
  | [] => REmpty
  | c :: w' => RSeq (chr_i c) (word_i w')
  end.

End Re.
Import Re.

(** ** Field extraction *)

(** [r"From:\s*(.*?)(?:\n|$)"] and [r"Subject:\s*(.*?)(?:\n|$)"] with [re.I]. *)
Definition header_re (name : string) : regex :=
  RSeq (word_i (lit name))
    (RSeq (RStar true cls_s)
      (RSeq (RGroup 1 (RStar false dot))
            (RAlt (chr nl) REnd))).

Definition unknown : pystr := lit "unknown".

(** [_extract_email_parts] *)
Definition _extract_email_parts (raw_text : pystr) : pystr * pystr * pystr :=
  let sender := unknown in
  let subject := unknown in
  let body := raw_text in
  let from_match := search (header_re "From:") raw_text in
  let sender :=
    match from_match with
    | Some m => strip (group raw_text m 1)
    | None => sender
    end in
  let subj_match := search (header_re "Subject:") raw_text in
  let subject :=
    match subj_match with
    | Some m => strip (group raw_text m 1)
    | None => subject
    end in
  let header_pos := 0 in
  let header_pos :=
    match from_match with
    | Some m => Nat.max header_pos (m_end m)
    | None => header_pos
    end in
  let header_pos :=
    match subj_match with
    | Some m => Nat.max header_pos (m_end m)
    | None => header_pos
    end in
  let body :=
    if 0 <? header_pos then strip (skipn header_pos raw_text) else body in
  (sender, subject, body).


(** ** Strings of any code points

    The strings that [json.loads] returns can hold any code point, through
    the escapes of JSON, whatever the alphabet of the text they are read
    from: they are lists of code points. *)

Module WStr.

Local Open Scope N_scope.

Definition wstr := list N.

(** The code point of a character of a text. *)
Definition cp (c : ascii) : N := N.of_nat (code c).

Definition wide (s : pystr) : wstr := map cp s.

Definition wlit (s : string) : wstr := wide (lit s).

(** [a == b] *)
Fixpoint weqb (a b : wstr) : bool :=
  match a, b with
  | [], [] => true
  | x :: a', y :: b' => (x =? y) && weqb a' b'
  | _, _ => false
  end.

Fixpoint wstartswith (p s : wstr) : bool :=
  match p, s with
  | [], _ => true
  | a :: p', b :: s' => (a =? b) && wstartswith p' s'
  | _ :: _, [] => false
  end.

(** [p in s] *)
Fixpoint wcontains (p s : wstr) : bool :=
  wstartswith p s ||
  match s with
  | [] => false
  | _ :: s' => wcontains p s'
  end.

Section Lower.

(** [str.lower] on one character above U+00FF (it can give several
    characters). *)
Variable unicode_lower : N -> wstr.

Definition wlower_char (n : N) : wstr :=
  if n <? 256 then [cp (lower_char (ascii_of_N n))] else unicode_lower n.

(** [s.lower()] *)
Definition wlower (s : wstr) : wstr := flat_map wlower_char s.

End Lower.

End WStr.
Import WStr.

(** ** Python numbers *)

Module PyNum.

Local Open Scope Z_scope.

(** Round an integer to the nearest binary64 (ties to even). *)
Definition round_int (z : Z) : float := SF2Prim (binary_normalize 53 1024 z 0 false).

Definition is_finite (f : float) : bool :=
  negb (PrimFloat.is_infinity f) && negb (PrimFloat.is_nan f).

(** [float(z)] for an [int]: [None] stands for OverflowError. *)
Definition float_of_int (z : Z) : option float :=
  let f := round_int z in
  if PrimFloat.is_infinity f then None else Some f.

Definition signed_zero (neg : bool) : float :=
  if neg then PrimFloat.opp PrimFloat.zero else PrimFloat.zero.

Definition signed_inf (neg : bool) : float :=
  if neg then PrimFloat.neg_infinity else PrimFloat.infinity.

Definition bitlen (z : Z) : Z := Z.log2 z + 1.

(** The binary64 nearest to [m * 10^e] (sign [neg], [0 <= m]), as [float]
    applied to a decimal numeral computes it: the quotient by a power of ten
    is taken with 64 bits to spare and a sticky bit, so that one rounding to
    nearest-even decides. *)
Definition float_of_decimal (neg : bool) (m e : Z) : float :=
  let sgn (z : Z) := if neg then Z.opp z else z in
  if m =? 0 then signed_zero neg
  else if 400 <? e then signed_inf neg
  else if 0 <=? e then SF2Prim (binary_normalize 53 1024 (sgn (m * 10 ^ e)) 0 false)
  else if e + bitlen m <? -400 then signed_zero neg
  else
    let d := 10 ^ (- e) in
    let k := Z.max 0 (bitlen d - bitlen m + 64) in
    let q := (m * 2 ^ k) / d in
    let sticky := if (m * 2 ^ k) mod d =? 0 then 0 else 1 in
    SF2Prim (binary_normalize 53 1024 (sgn (2 * q + sticky)) (- k - 1) neg).

(** [z < f] and [f < z] for an [int] and a [float], compared exactly. *)
Definition int_lt_float (z : Z) (f : float) : bool :=
  match Prim2SF f with
  | S754_nan => false
  | S754_infinity s => negb s
  | S754_zero _ => z <? 0
  | S754_finite s m e =>
    let v := if s then Z.neg m else Z.pos m in
    if 0 <=? e then z <? v * 2 ^ e else z * 2 ^ (- e) <? v
  end.

Definition float_lt_int (f : float) (z : Z) : bool :=
  match Prim2SF f with
  | S754_nan => false
  | S754_infinity s => s
  | S754_zero _ => 0 <? z
  | S754_finite s m e =>
    let v := if s then Z.neg m else Z.pos m in
    if 0 <=? e then v * 2 ^ e <? z else v <? z * 2 ^ (- e)
  end.

End PyNum.
Import PyNum.

(** ** The values of [json] and the decoder [json.loads] *)

Module PyJson.

Inductive json : Type :=
| JNull                                  (* None *)
| JBool (b : bool)
| JInt (z : Z)
| JFloat (f : float)
| JStr (s : wstr)
| JArr (items : list json)               (* list *)
| JObj (members : list (wstr * json)).   (* dict: keys in insertion order, no repeats *)

(** A string of a text as a value. *)
Definition jstr (s : pystr) : json := JStr (wide s).

(** [d[k] = v] *)
Fixpoint dict_set (k : wstr) (v : json) (d : list (wstr * json)) : list (wstr * json) :=
  match d with
  | [] => [(k, v)]
  | (k', v') :: d' =>
    if weqb k k' then (k, v) :: d' else (k', v') :: dict_set k v d'
  end.

Fixpoint dict_get (k : wstr) (d : list (wstr * json)) : option json :=
  match d with
  | [] => None
  | (k', v') :: d' => if weqb k k' then Some v' else dict_get k d'
  end.

Definition ch_is (c : ascii) (x : string) : bool :=
  match x with
  | String y EmptyString => Ascii.eqb c y
  | _ => false
  end.

(** JSON whitespace: space, tab, newline, carriage return. *)
Definition is_ws (c : ascii) : bool :=
  let n := code c in (n =? 32)%nat || (n =? 9)%nat || (n =? 10)%nat || (n =? 13)%nat.

Fixpoint skip_ws (s : pystr) : pystr :=
  match s with
  | c :: t => if is_ws c then skip_ws t else s
  | [] => []
  end.

Definition isdigit (c : ascii) : bool := between 48 57 (code c).

Definition hexval (c : ascii) : option nat :=
  let n := code c in
  if between 48 57 n then Some (n - 48)%nat
  else if between 97 102 n then Some (n - 87)%nat
  else if between 65 70 n then Some (n - 55)%nat
  else None.

Definition hex4 (a b c d : ascii) : option N :=
  match hexval a, hexval b, hexval c, hexval d with
  | Some x, Some y, Some z, Some w => Some (N.of_nat (((x * 16 + y) * 16 + z) * 16 + w))
  | _, _, _, _ => None
  end.

(** The one-letter escapes of a JSON string. *)
Definition unescape (e : ascii) : option ascii :=
  if Ascii.eqb e dq then Some dq
  else if ch_is e "\" then Some e
  else if ch_is e "/" then Some e
  else if ch_is e "b" then Some (ascii_of_nat 8)
  else if ch_is e "f" then Some (ascii_of_nat 12)
  else if ch_is e "n" then Some (ascii_of_nat 10)
  else if ch_is e "r" then Some (ascii_of_nat 13)
  else if ch_is e "t" then Some (ascii_of_nat 9)
  else None.

(** Surrogates: U+D800..U+DBFF and U+DC00..U+DFFF, and the code point
    that a pair of them stands for. *)
Definition is_high_surrogate (n : N) : bool := ((55296 <=? n) && (n <=? 56319))%N.
Definition is_low_surrogate (n : N) : bool := ((56320 <=? n) && (n <=? 57343))%N.
Definition join_surrogates (hi lo : N) : N :=
  (65536 + (hi - 55296) * 1024 + (lo - 56320))%N.

(** [scanstring] in strict mode, from just after the opening quote: the
    decoded string and what follows the closing quote. An escape [\uXXXX]
    gives the code point XXXX; a high surrogate followed by the escape of a
    low surrogate gives the code point of the pair, and a surrogate without
    its partner is kept as it is. *)
Fixpoint scanstring (s : pystr) : option (wstr * pystr) :=
  match s with
  | [] => None
  | c :: t =>
    if Ascii.eqb c dq then Some ([], t)
    else if ch_is c "\" then
      match t with
      | [] => None
      | e :: t1 =>
        if ch_is e "u" then
          match t1 with
          | h1 :: h2 :: h3 :: h4 :: t2 =>
            match hex4 h1 h2 h3 h4 with
            | Some n =>
              let alone :=
                match scanstring t2 with
                | Some (r, after) => Some (n :: r, after)
                | None => None
                end in
              if is_high_surrogate n then
                match t2 with
                | b :: u :: g1 :: g2 :: g3 :: g4 :: t3 =>
                  if ch_is b "\" && ch_is u "u" then
                    match hex4 g1 g2 g3 g4 with
                    | Some lo =>
                      if is_low_surrogate lo then
                        match scanstring t3 with
                        | Some (r, after) => Some (join_surrogates n lo :: r, after)
                        | None => None
                        end
                      else alone
                    | None => None
                    end
                  else alone
                | _ => alone
                end
              else alone
            | None => None
            end
          | _ => None
          end
        else
          match unescape e with
          | Some x =>
            match scanstring t1 with
            | Some (r, after) => Some (cp x :: r, after)
            | None => None
            end
          | None => None
          end
      end
    else if (code c <? 32)%nat then None
    else
      match scanstring t with
      | Some (r, after) => Some (cp c :: r, after)
      | None => None
      end
  end.

(** A run of decimal digits: its value on top of [acc], its length, the rest. *)
Fixpoint digits (s : pystr) (acc : Z) (n : Z) : Z * Z * pystr :=
  match s with
  | c :: t =>
    if isdigit c then digits t (acc * 10 + Z.of_nat (code c - 48)) (n + 1)
    else (acc, n, s)
  | [] => (acc, n, s)
  end.

(** The most digits that [int] accepts in a decimal numeral
    ([sys.int_info.default_max_str_digits] of CPython 3.11). *)
Definition int_max_str_digits : Z := 4300.

(** A numeral: an optional minus sign; an integer part, either 0 alone or
    digits with no leading 0; an optional fraction (a point and digits); an
    optional exponent (e or E, an optional sign, digits). It is an [int]
    when it has neither fraction nor exponent, else a [float]. The
    conversion to [int] raises ValueError for a numeral of more than
    [int_max_str_digits] digits. *)
Definition match_number (s : pystr) : option (json * pystr) :=
  let '(neg, s0) :=
    match s with
    | c :: t => if ch_is c "-" then (true, t) else (false, s)
    | [] => (false, s)
    end in
  let int_part :=
    match s0 with
    | c :: t =>
      if ch_is c "0" then Some (0%Z, 1%Z, t)
      else if isdigit c then let '(v, n, r) := digits s0 0 0 in Some (v, n, r)
      else None
    | [] => None
    end in
  match int_part with
  | None => None
  | Some (ip, icount, s1) =>
    let '(has_frac, m, fcount, s2) :=
      match s1 with
      | c :: d :: _ =>
        if ch_is c "." && isdigit d
        then let '(v, n, r) := digits (tl s1) ip 0 in (true, v, n, r)
        else (false, ip, 0%Z, s1)
      | _ => (false, ip, 0%Z, s1)
      end in
    let '(has_exp, ex, s3) :=
      match s2 with
      | c :: t =>
        if ch_is c "e" || ch_is c "E" then
          let '(eneg, t1) :=
            match t with
            | g :: t' => if ch_is g "-" then (true, t') else if ch_is g "+" then (false, t') else (false, t)
            | [] => (false, t)
            end in
          match t1 with
          | d :: _ =>
            if isdigit d
            then let '(v, _, r) := digits t1 0 0 in (true, if eneg then Z.opp v else v, r)
            else (false, 0%Z, s2)
          | [] => (false, 0%Z, s2)
          end
        else (false, 0%Z, s2)
      | [] => (false, 0%Z, s2)
      end in
    if has_frac || has_exp
    then Some (JFloat (float_of_decimal neg m (ex - fcount)%Z), s3)
    else if (int_max_str_digits <? icount)%Z then None
    else Some (JInt (if neg then Z.opp ip else ip), s3)
  end.

Section Containers.

(** The decoder of one value, at the nesting depth below. *)
Variable scan : pystr -> option (json * pystr).

(** Array items, from the first item (the array is not empty). *)
Fixpoint array_items (n : nat) (acc : list json) (s : pystr) : option (json * pystr) :=
  match n with
  | 0%nat => None
  | S n' =>
    match scan s with
    | None => None
    | Some (v, s1) =>
      match skip_ws s1 with
      | c :: s2 =>
        if ch_is c "]" then Some (JArr (rev (v :: acc)), s2)
        else if ch_is c "," then array_items n' (v :: acc) (skip_ws s2)
        else None
      | [] => None
      end
    end
  end.

(** Object members, from the first key (the object is not empty); a
    repeated key keeps its place and takes the later value. *)
Fixpoint object_members (n : nat) (acc : list (wstr * json)) (s : pystr)
    : option (json * pystr) :=
  match n with
  | 0%nat => None
  | S n' =>
    match s with
    | q :: t =>
      if Ascii.eqb q dq then
        match scanstring t with
        | None => None
        | Some (key, s1) =>
          match skip_ws s1 with
          | c :: s2 =>
            if ch_is c ":" then
              match scan (skip_ws s2) with
              | None => None
              | Some (v, s3) =>
                let acc' := dict_set key v acc in
                match skip_ws s3 with
                | c3 :: s4 =>
                  if ch_is c3 "}" then Some (JObj acc', s4)
                  else if ch_is c3 "," then object_members n' acc' (skip_ws s4)
                  else None
                | [] => None
                end
              end
            else None
          | [] => None
          end
        end
      else None
    | [] => None
    end
  end.

End Containers.

(** [scan_once]: one JSON value at the head of [s]. The scanner enters
    an object or an array through a recursive call that the interpreter
    counts: [depth] is the number of such calls, one inside the other, that
    are left before the recursion limit is reached and RecursionError is
    raised. *)
Fixpoint scan_once (depth : nat) (s : pystr) : option (json * pystr) :=
  match s with
  | [] => None
  | c :: t =>
    if Ascii.eqb c dq then
      match scanstring t with
      | Some (r, after) => Some (JStr r, after)
      | None => None
      end
    else if ch_is c "{" then
      match depth with
      | 0%nat => None
      | S depth' =>
        match skip_ws t with
        | c1 :: t1 =>
          if ch_is c1 "}" then Some (JObj [], t1)
          else object_members (scan_once depth') (S (length t)) [] (skip_ws t)
        | [] => None
        end
      end
    else if ch_is c "[" then
      match depth with
      | 0%nat => None
      | S depth' =>
        match skip_ws t with
        | c1 :: t1 =>
          if ch_is c1 "]" then Some (JArr [], t1)
          else array_items (scan_once depth') (S (length t)) [] (skip_ws t)
        | [] => None
        end
      end
    else if startswith (lit "null") s then Some (JNull, skipn 4 s)
    else if startswith (lit "true") s then Some (JBool true, skipn 4 s)
    else if startswith (lit "false") s then Some (JBool false, skipn 5 s)
    else if startswith (lit "NaN") s then Some (JFloat PrimFloat.nan, skipn 3 s)
    else if startswith (lit "Infinity") s then Some (JFloat PrimFloat.infinity, skipn 8 s)
    else if startswith (lit "-Infinity") s then Some (JFloat PrimFloat.neg_infinity, skipn 9 s)
    else match_number s
  end.

(** [json.loads(text)] with [depth] recursive calls left: [None] stands
    for the exception it raises (JSONDecodeError, ValueError, RecursionError). *)
Definition json_loads (depth : nat) (text : pystr) : option json :=
  match scan_once depth (skip_ws text) with
  | Some (v, r) =>
    match skip_ws r with
    | [] => Some v
    | _ :: _ => None
    end
  | None => None
  end.

(** [json.dumps] of a [str] (the default [ensure_ascii]). *)
Definition hexdigit (n : nat) : ascii :=
  if (n <? 10)%nat then ascii_of_nat (48 + n) else ascii_of_nat (87 + n).

Definition encode_char (c : ascii) : pystr :=
  let n := code c in
  if Ascii.eqb c dq then [ascii_of_nat 92; dq]
  else if (n =? 92)%nat then [c; c]
  else if (n =? 10)%nat then lit "\n"
  else if (n =? 13)%nat then lit "\r"
  else if (n =? 9)%nat then lit "\t"
  else if (n =? 12)%nat then lit "\f"
  else if (n =? 8)%nat then lit "\b"
  else if between 32 126 n then [c]
  else lit "\u00" ++ [hexdigit (n / 16); hexdigit (n mod 16)].

Definition encode_basestring (s : pystr) : pystr :=
  dq :: flat_map encode_char s ++ [dq].

End PyJson.
Import PyJson.

(** ** Exceptions *)

Inductive pyexn : Type := AttributeError | TypeError | OverflowError.

Inductive pyres (A : Type) : Type :=
| Ok (a : A)
| Raise (e : pyexn).
Arguments Ok {A} a.
Arguments Raise {A} e.

Definition bind {A B : Type} (x : pyres A) (f : A -> pyres B) : pyres B :=
  match x with
  | Ok a => f a
  | Raise e => Raise e
  end.

Notation "x <- c ;; k" := (bind c (fun x => k))
  (at level 100, c at next level, right associativity).

(** ** Prompt rendering *)

Definition quoted (s : string) : pystr := dq :: lit s ++ [dq].

Definition max_body_len : nat := 5000.

Definition truncation_marker : pystr := lit "...[truncated]".

(** The template before the sender, between the fields, and after the body. *)
Definition prompt_head : pystr :=
  lit "Analyze this email for phishing threats and security risks." ++ nl ::
  lit "EMAIL:" ++ nl ::
  lit "From: ".

Definition prompt_tail : pystr :=
  nl ::
  lit "Look for:" ++ nl ::
  lit "- Urgency/threatening language" ++ nl ::
  lit "- Spelling/grammar issues" ++ nl ::
  lit "- Requests for sensitive data (credentials, personal info)" ++ nl ::
  lit "- Suspicious links or attachments" ++ nl ::
  lit "- Brand impersonation attempts" ++ nl ::
  lit "- Social engineering tactics" ++ nl ::
  lit "IMPORTANT: Respond with ONLY a JSON object having this structure:" ++ nl ::
  lit "{" ++ nl ::
  lit "  " ++ quoted "phishing_likelihood" ++ lit ": <float 0-1>," ++ nl ::
  lit "  " ++ quoted "confidence" ++ lit ": <float 0-1>," ++ nl ::
  lit "  " ++ quoted "insights" ++ lit ": [<strings listing specific red flags>]," ++ nl ::
  lit "  " ++ quoted "reasoning" ++ lit ": " ++ quoted "<detailed explanation>" ++ lit "," ++ nl ::
  lit "  " ++ quoted "recommended_action" ++ lit ": " ++ quoted "<action advice for user>" ++ nl ::
  lit "}" ++ [nl].

(** [_build_prompt] *)
Definition _build_prompt (sender subject body : pystr) : pystr :=
  let body :=
    if max_body_len <? length body
    then firstn max_body_len body ++ truncation_marker
    else body in
  prompt_head ++ sender ++ nl ::
  lit "Subject: " ++ subject ++ nl ::
  lit "Body: " ++ nl ::
  body ++ prompt_tail.

(** ** Recovery of the structured answer *)

(** [r'({[\s\S]*})'] *)
Definition brace_re : regex :=
  RGroup 1 (RSeq (chr "{") (RSeq (RStar true cls_any) (chr "}"))).

(** [r'(\w+):'] and its replacement: the group between double quotes, then a colon. *)
Definition key_re : regex := RSeq (RGroup 1 (plus cls_w)) (chr ":").

Definition quote_key (text : pystr) (m : rmatch) : pystr :=
  dq :: group text m 1 ++ dq :: lit ":".

(** [s.replace(single quote, double quote)] *)
Definition requote (s : pystr) : pystr :=
  map (fun c => if Ascii.eqb c sq then dq else c) s.

Definition default_analysis : json :=
  JObj [ (wlit "phishing_likelihood", JFloat 0.5);
         (wlit "confidence", JFloat 0.3);
         (wlit "insights", JArr [JStr (wlit "Parser error - couldn't extract analysis")]);
         (wlit "reasoning", JStr (wlit "Response format error"));
         (wlit "recommended_action", JStr (wlit "Manually review this email")) ].

(** [_extract_json], with [depth] recursive calls left to each [json.loads]
    (the three calls are made at the same depth of the interpreter's stack). *)
Definition _extract_json (depth : nat) (text : pystr) : json :=
  match text with
  | [] => JObj []
  | _ :: _ =>
    match json_loads depth text with
    | Some v => v
    | None =>
      match search brace_re text with
      | Some m =>
        match json_loads depth (group text m 1) with
        | Some v => v
        | None =>
          let json_text := group text m 1 in
          let json_text := sub key_re quote_key json_text in
          let json_text := requote json_text in
          match json_loads depth json_text with
          | Some v => v
          | None => default_analysis
          end
        end
      | None => default_analysis
      end
    end
  end.

(** ** Risk scoring *)

Inductive RiskLevel : Type := SAFE | SUSPICIOUS | DANGEROUS.

Definition danger_keywords : list wstr :=
  map wlit ["credentials"; "password"; "account"; "urgent"; "login"; "verify"]%string.

(** [analysis.get(key, default)] *)
Definition py_get (analysis : json) (key : string) (default : json) : pyres json :=
  match analysis with
  | JObj d =>
    Ok (match dict_get (wlit key) d with
        | Some v => v
        | None => default
        end)
  | _ => Raise AttributeError
  end.

(** [for x in v]: the items a loop over [v] visits. *)
Definition py_iter (v : json) : pyres (list json) :=
  match v with
  | JArr l => Ok l
  | JStr s => Ok (map (fun c => JStr [c]) s)
  | JObj d => Ok (map (fun kv => JStr (fst kv)) d)
  | _ => Raise TypeError
  end.

Section Scoring.

(** [str.lower] on one character above U+00FF. *)
Variable unicode_lower : N -> wstr.

(** [v.lower()] *)
Definition py_lower (v : json) : pyres wstr :=
  match v with
  | JStr s => Ok (wlower unicode_lower s)
  | _ => Raise AttributeError
  end.

Definition float_of_bool (b : bool) : float := if b then 1%float else 0%float.

(** [v + x] for a float [x] *)
Definition py_add_float (v : json) (x : float) : pyres json :=
  match v with
  | JFloat f => Ok (JFloat (f + x)%float)
  | JInt z =>
    match float_of_int z with
    | Some f => Ok (JFloat (f + x)%float)
    | None => Raise OverflowError
    end
  | JBool b => Ok (JFloat (float_of_bool b + x)%float)
  | _ => Raise TypeError
  end.

(** [x < v] and [v < x] for a float [x] *)
Definition py_float_lt (x : float) (v : json) : pyres bool :=
  match v with
  | JFloat f => Ok (x <? f)%float
  | JInt z => Ok (float_lt_int x z)
  | JBool b => Ok (float_lt_int x (if b then 1 else 0))
  | _ => Raise TypeError
  end.

Definition py_lt_float (v : json) (x : float) : pyres bool :=
  match v with
  | JFloat f => Ok (f <? x)%float
  | JInt z => Ok (int_lt_float z x)
  | JBool b => Ok (int_lt_float (if b then 1 else 0) x)
  | _ => Raise TypeError
  end.

(** [min(v, x)]: [x] when [x < v], else [v]. *)
Definition py_min (v : json) (x : float) : pyres json :=
  b <- py_float_lt x v ;;
  Ok (if b then JFloat x else v).

(** The inner loop over the keywords, left at the first match. *)
Fixpoint keyword_loop (keywords : list wstr) (insight_lower : wstr) (phish_score : json)
    : pyres json :=
  match keywords with
  | [] => Ok phish_score
  | keyword :: keywords' =>
    if wcontains keyword insight_lower
    then py_add_float phish_score 0.1
    else keyword_loop keywords' insight_lower phish_score
  end.

(** The outer loop over the insights. *)
Fixpoint insight_loop (insights : list json) (phish_score : json) : pyres json :=
  match insights with
  | [] => Ok phish_score
  | insight :: insights' =>
    insight_lower <- py_lower insight ;;
    phish_score <- keyword_loop danger_keywords insight_lower phish_score ;;
    insight_loop insights' phish_score
  end.

(** The value of [phish_score] in [_calc_risk_level] when the thresholds
    are reached: the likelihood, raised by the loop and passed through [min]. *)
Definition phish_score_of (analysis : json) : pyres json :=
  phish_score <- py_get analysis "phishing_likelihood" (JFloat 0.5) ;;
  insights <- py_get analysis "insights" (JArr []) ;;
  items <- py_iter insights ;;
  phish_score <- insight_loop items phish_score ;;
  py_min phish_score 1.0.

(** [_calc_risk_level] *)
Definition _calc_risk_level (analysis : json) : pyres RiskLevel :=
  phish_score <- phish_score_of analysis ;;
  below_safe <- py_lt_float phish_score 0.35 ;;
  if below_safe then Ok SAFE
  else
    below_dangerous <- py_lt_float phish_score 0.65 ;;
    if below_dangerous then Ok SUSPICIOUS else Ok DANGEROUS.

End Scoring.

(** ** The verdict record *)

Record verdict : Type := Verdict {
  timestamp : pystr;
  risk_level : RiskLevel;
  confidence : float;
  reasons : json;
  recommended_action : json;
  analysis : json
}.

Definition fixed_timestamp : pystr := lit "2025-03-07 14:05:36".

(** [_error_response] *)
Definition _error_response (message : pystr) : verdict :=
  {| timestamp := fixed_timestamp;
     risk_level := SUSPICIOUS;
     confidence := 50.0;
     reasons := JArr [JStr (wlit "Error in analysis process")];
     recommended_action := JStr (wlit "Manual review required");
     analysis := JStr (wide message) |}.

(** [v[:5]] *)
Definition py_slice5 (v : json) : pyres json :=
  match v with
  | JArr l => Ok (JArr (firstn 5 l))
  | JStr s => Ok (JStr (firstn 5 s))
  | _ => Raise TypeError
  end.

(** ** The remote client and the pipeline *)

Definition MAX_RETRIES : nat := 3.

Definition models_to_try : list pystr :=
  map lit ["gemini-2.0-flash"; "gemini-1.5-flash"; "gemini-1.0-pro"]%string.

(** What one invocation of the remote capability does. *)
Inductive outcome : Type :=
| Returned (text : pystr)
| Failed (error_msg : pystr).

(** The effects of the client that the caller can observe, in program order. *)
Inductive effect : Type :=
| Invoke (model prompt : pystr)
| Sleep (seconds : nat).

(** The detector's fields. *)
Record detector : Type := Detector {
  debug : bool;
  _cache : gmap Z pystr;
  api_calls : nat
}.

Definition count_call (d : detector) : detector :=
  {| debug := debug d; _cache := _cache d; api_calls := S (api_calls d) |}.

Definition cache_put (d : detector) (k : Z) (v : pystr) : detector :=
  {| debug := debug d; _cache := <[k := v]> (_cache d); api_calls := api_calls d |}.

(** [json.dumps] of the dictionary returned when the attempts are used up
    (the floats 0.5 and 0.4 print as written). *)
Definition exhausted_payload (error_msg : pystr) : pystr :=
  lit "{" ++ quoted "phishing_likelihood" ++ lit ": 0.5, "
  ++ quoted "confidence" ++ lit ": 0.4, "
  ++ quoted "insights" ++ lit ": [" ++ quoted "API error: Unable to analyze email" ++ lit "], "
  ++ quoted "reasoning" ++ lit ": " ++ encode_basestring (lit "Error: " ++ error_msg) ++ lit ", "
  ++ quoted "recommended_action" ++ lit ": " ++ quoted "Please examine the email carefully"
  ++ lit "}".

Section Detector.

(** The interpreter's [hash] on strings. *)
Variable hash : pystr -> Z.

(** The builtin [float] on a string ([None]: ValueError). *)
Variable float_of_str : wstr -> option float.

(** [str.lower] on one character above U+00FF. *)
Variable unicode_lower : N -> wstr.

(** The recursive calls left to [json.loads] when [_extract_json] runs:
    the recursion limit of the interpreter less the frames in use. *)
Variable depth_limit : nat.

(** The remote capability: what its [n]-th invocation by this process
    answers for a model and a prompt ([n] counted from 0). *)
Variable generate : nat -> pystr -> pystr -> outcome.

(** [float(v)]: [None] stands for the exception it raises. *)
Definition py_float (v : json) : option float :=
  match v with
  | JFloat f => Some f
  | JInt z => float_of_int z
  | JBool b => Some (float_of_bool b)
  | JStr s => float_of_str s
  | _ => None
  end.

(** [_format_confidence] *)
Definition _format_confidence (confidence : json) : float :=
  match py_float confidence with
  | Some conf_value => (conf_value * 100)%float
  | None => 50.0%float
  end.

(** The loop of [_call_gemini_with_retry] from attempt number [attempt],
    with [remaining] attempts left of [range(MAX_RETRIES)]. *)
Fixpoint retry_loop (prompt : pystr) (remaining attempt : nat) (d : detector)
    : pystr * detector * list effect :=
  match remaining with
  | 0 => (lit "{}", d, [])
  | S remaining' =>
    let model_idx := Nat.min attempt (length models_to_try - 1) in
    let model := nth model_idx models_to_try [] in
    let d1 := count_call d in
    match generate (api_calls d) model prompt with
    | Returned text => (text, d1, [Invoke model prompt])
    | Failed error_msg =>
      if contains (lit "rate limit") (lower error_msg) then
        let wait_time := (attempt + 1) * 2 in
        let '(text, d2, effects) := retry_loop prompt remaining' (S attempt) d1 in
        (text, d2, Invoke model prompt :: Sleep wait_time :: effects)
      else if attempt <? MAX_RETRIES - 1 then
        let '(text, d2, effects) := retry_loop prompt remaining' (S attempt) d1 in
        (text, d2, Invoke model prompt :: Sleep 1 :: effects)
      else (exhausted_payload error_msg, d1, [Invoke model prompt])
    end
  end.

(** [_call_gemini_with_retry] *)
Definition _call_gemini_with_retry (prompt : pystr) (d : detector)
    : pystr * detector * list effect :=
  retry_loop prompt MAX_RETRIES 0 d.

(** [not email_text or email_text.strip() == ""] *)
Definition is_blank (email_text : pystr) : bool :=
  match email_text with
  | [] => true
  | _ :: _ => PyStr.eqb (strip email_text) []
  end.

(** The record built at the end of [analyze_email]. *)
Definition assemble (analysis : json) : pyres verdict :=
  risk_level <- _calc_risk_level unicode_lower analysis ;;
  confidence <- py_get analysis "confidence" (JFloat 0.5) ;;
  insights <- py_get analysis "insights" (JArr []) ;;
  reasons <- py_slice5 insights ;;
  recommended_action <- py_get analysis "recommended_action" (JStr (wlit "Review email carefully")) ;;
  reasoning <- py_get analysis "reasoning" (JStr []) ;;
  Ok {| timestamp := fixed_timestamp;
        risk_level := risk_level;
        confidence := _format_confidence confidence;
        reasons := reasons;
        recommended_action := recommended_action;
        analysis := reasoning |}.

(** [analyze_email]: the result (a verdict or the exception that leaves the
    call), the detector afterwards, and the effects of the call. *)
Definition analyze_email (d : detector) (email_text : pystr)
    : pyres verdict * detector * list effect :=
  if is_blank email_text then (Ok (_error_response (lit "Empty email text")), d, [])
  else
    let '(sender, subject, body) := _extract_email_parts email_text in
    let prompt := _build_prompt sender subject body in
    let cache_key := hash prompt in
    let '(response_text, d1, effects) :=
      match _cache d !! cache_key with
      | Some cached =>
        if negb (debug d) then (cached, d, [])
        else
          let '(text, d', effects) := _call_gemini_with_retry prompt d in
          (text, cache_put d' cache_key text, effects)
      | None =>
        let '(text, d', effects) := _call_gemini_with_retry prompt d in
        (text, cache_put d' cache_key text, effects)
      end in
    let analysis := _extract_json depth_limit response_text in
    (assemble analysis, d1, effects).

(** A run of calls on one detector, as a session makes them. *)
Fixpoint analyze_all (d : detector) (emails : list pystr)
    : list (pyres verdict) * detector * list effect :=
  match emails with
  | [] => ([], d, [])
  | email_text :: emails' =>
    let '(r, d1, e1) := analyze_email d email_text in
    let '(rs, d2, e2) := analyze_all d1 emails' in
    (r :: rs, d2, e1 ++ e2)
  end.

End Detector.

Definition new_detector (debug : bool) : detector :=
  {| debug := debug; _cache := ∅; api_calls := 0 |}.

(** ** Instances for running the model on concrete inputs *)

(** A polynomial hash. *)
Definition poly_hash (s : pystr) : Z :=
  fold_left (fun h c => (h * 31 + Z.of_nat (code c)) mod 2305843009213693951)%Z s 7%Z.

(** A [float] that accepts no string. *)
Definition no_float_of_str (s : wstr) : option float := None.

(** A [str.lower] that changes no character above U+00FF. *)
Definition no_unicode_lower (n : N) : wstr := [n].

(** Room for a hundred nested containers. *)
Definition ample_depth : nat := 100.

(** A remote capability that answers its invocations from a script, and
    fails once the script is used up. *)
Definition scripted (script : list outcome) (n : nat) (model prompt : pystr) : outcome :=
  nth n script (Failed (lit "connection refused")).

(** ** Vocabulary of the statements *)

(** The template up to the body. *)
Definition prompt_before (sender subject : pystr) : pystr :=
  prompt_head ++ sender ++ nl :: lit "Subject: " ++ subject ++ nl :: lit "Body: " ++ [nl].

(** The test of the handler on the message of a failure. *)
Definition rate_limited (error_msg : pystr) : bool :=
  contains (lit "rate limit") (lower error_msg).

(** The model that attempt number [attempt] asks. *)
Definition tier (attempt : nat) : pystr :=
  nth (Nat.min attempt (length models_to_try - 1)) models_to_try [].

(** The sleep that follows the failure of attempt number [attempt]. *)
Definition pause (attempt : nat) (error_msg : pystr) : nat :=
  if rate_limited error_msg then (attempt + 1) * 2 else 1.

(** The detector after [n] more invocations were counted. *)
Definition add_calls (n : nat) (d : detector) : detector :=
  {| debug := debug d; _cache := _cache d; api_calls := n + api_calls d |}.

(** The number of remote invocations among the effects of a call. *)
Fixpoint invocations (effects : list effect) : nat :=
  match effects with
  | [] => 0
  | Invoke _ _ :: effects' => S (invocations effects')
  | Sleep _ :: effects' => invocations effects'
  end.

(** The prompt that [analyze_email] renders for an email text. *)
Definition rendered_prompt (email_text : pystr) : pystr :=
  let '(sender, subject, body) := _extract_email_parts email_text in
  _build_prompt sender subject body.

(** The dictionary that [exhausted_payload] serialises. *)
Definition sentinel (error_msg : pystr) : json :=
  JObj [ (wlit "phishing_likelihood", JFloat 0.5);
         (wlit "confidence", JFloat 0.4);
         (wlit "insights", JArr [JStr (wlit "API error: Unable to analyze email")]);
         (wlit "reasoning", jstr (lit "Error: " ++ error_msg));
         (wlit "recommended_action", JStr (wlit "Please examine the email carefully")) ].

(** A small email with both headers. *)
Definition sample_email : pystr :=
  lit "From: a@b.com" ++ nl :: lit "Subject: Hi" ++ nl :: nl :: lit "Body text".

(** Two scripts for the remote capability: limited once and then answering;
    failing three times, the last time because of the rate limit. *)
Definition limited_once : list outcome :=
  [Failed (lit "429 Rate limit exceeded"); Returned (lit "{}")].

Definition limited_at_last : list outcome :=
  [Failed (lit "timeout"); Failed (lit "timeout"); Failed (lit "429 Rate limit exceeded")].

Definition fails_twice : list outcome :=
  [Failed (lit "timeout"); Failed (lit "quota: RATE LIMIT hit"); Returned (lit "{}")].

(** ** The scoring rule, as the specification words it *)

(** The six keywords. *)
Definition keywords : list string :=
  ["credentials"; "password"; "account"; "urgent"; "login"; "verify"]%string.

(** [x] is the character [k], or the capital letter of which [k] is the
    small letter. *)
Definition same_letter (k x : ascii) : bool :=
  Ascii.eqb x k || (between 65 90 (code x) && (code x + 32 =? code k)).

(** [s] begins with the word [k], whatever the case of its letters. *)
Fixpoint begins_with_word (k s : pystr) : bool :=
  match k, s with
  | [], _ => true
  | a :: k', x :: s' => same_letter a x && begins_with_word k' s'
  | _ :: _, [] => false
  end.

(** The word [k] occurs in [s], whatever the case of its letters. *)
Fixpoint word_occurs (k s : pystr) : bool :=
  begins_with_word k s ||
  match s with
  | [] => false
  | _ :: s' => word_occurs k s'
  end.

(** An insight mentions a keyword, whatever its case. *)
Definition mentions_keyword (insight : pystr) : bool :=
  existsb (fun keyword => word_occurs (lit keyword) insight) keywords.

(** The flat 0.1 that such an insight adds, once. *)
Definition boost (score : float) (insight : pystr) : float :=
  if mentions_keyword insight then (score + 0.1)%float else score.

Definition accumulated (likelihood : float) (insights : list pystr) : float :=
  fold_left boost insights likelihood.

(** The score clamped to at most 1.0. *)
Definition clamped (score : float) : float :=
  if (1.0 <? score)%float then 1.0%float else score.

Definition level_of (score : float) : RiskLevel :=
  if (score <? 0.35)%float then SAFE
  else if (score <? 0.65)%float then SUSPICIOUS
  else DANGEROUS.

(** An analysis as the prompt asks for it, with three insights. *)
Definition sample_analysis : json :=
  JObj [ (wlit "phishing_likelihood", JFloat 0.25);
         (wlit "confidence", JFloat 0.9);
         (wlit "insights", JArr (map jstr
            [lit "URGENT: verify your Account"; lit "Generic greeting"; lit "Asks for the PASSWORD"]));
         (wlit "reasoning", JStr (wlit "Impersonates a bank"));
         (wlit "recommended_action", JStr (wlit "Do not click")) ].

(** [members.get(key, default)] on the members of an object. *)
Definition field (members : list (wstr * json)) (key : string) (default : json) : json :=
  match dict_get (wlit key) members with
  | Some v => v
  | None => default
  end.

(** Answers of the remote capability: an object as the prompt asks for it,
    a list, and an object whose confidence is 5. *)
Definition sample_response : pystr :=
  lit "{" ++ quoted "phishing_likelihood" ++ lit ": 0.25, "
  ++ quoted "confidence" ++ lit ": 0.9, "
  ++ quoted "insights" ++ lit ": [" ++ quoted "URGENT: verify your Account" ++ lit "]}".

Definition list_response : pystr := lit "[]".

Definition overconfident_response : pystr :=
  lit "{" ++ quoted "confidence" ++ lit ": 5}".

(** A likelihood to which the scorer can add 0.1: a float, a boolean, or
    an int in the range of [float]. *)
Definition is_score_number (v : json) : bool :=
  match v with
  | JFloat _ | JBool _ => true
  | JInt z => match float_of_int z with Some _ => true | None => false end
  | _ => false
  end.

Definition is_str (v : json) : bool :=
  match v with
  | JStr _ => true
  | _ => false
  end.

(** Insights that the pipeline accepts: a list of strings, or one string. *)
Definition string_items (v : json) : bool :=
  match v with
  | JArr items => forallb is_str items
  | JStr _ => true
  | _ => false
  end.

(** An answer with an int for likelihood. *)
Definition int_response : pystr :=
  lit "{" ++ quoted "phishing_likelihood" ++ lit ": 1, "
  ++ quoted "confidence" ++ lit ": 0.9, "
  ++ quoted "insights" ++ lit ": [" ++ quoted "Asks for the password" ++ lit "]}".

(** ** Field extraction, said without patterns *)

(** [s] begins with [name], letters compared without case: what follows it. *)
Fixpoint after_prefix_i (name s : pystr) : option pystr :=
  match name, s with
  | [], _ => Some s
  | c :: name', x :: s' =>
    if Ascii.eqb (lower_char x) (lower_char c) then after_prefix_i name' s' else None
  | _ :: _, [] => None
  end.

(** The first occurrence of [name] in [s], which starts at position [i] of
    the text: the position after the occurrence and what follows it. *)
Fixpoint first_header (name : pystr) (i : nat) (s : pystr) : option (nat * pystr) :=
  match after_prefix_i name s with
  | Some r => Some (i + length name, r)
  | None =>
    match s with
    | [] => None
    | _ :: t => first_header name (S i) t
    end
  end.

(** The characters before the first newline. *)
Fixpoint line_of (s : pystr) : pystr :=
  match s with
  | c :: t => if Ascii.eqb c nl then [] else c :: line_of t
  | [] => []
  end.

(** The value of a header and the position where its match ends: after the
    first occurrence of the name, anywhere in the text, white space is
    skipped (line ends too), the value is what follows up to the next line
    end, trimmed, and the match ends after that line end, if there is one. *)
Definition header_field (name : string) (text : pystr) : option (pystr * nat) :=
  match first_header (lit name) 0 text with
  | None => None
  | Some (j, r) =>
    let v := lstrip r in
    let line := line_of v in
    let b := j + (length r - length v) + length line in
    Some (strip line, if length line <? length v then S b else b)
  end.

Definition extract_direct (raw_text : pystr) : pystr * pystr * pystr :=
  let from_field := header_field "From:" raw_text in
  let subj_field := header_field "Subject:" raw_text in
  let value (f : option (pystr * nat)) :=
    match f with Some (v, _) => v | None => unknown end in
  let stop (f : option (pystr * nat)) :=
    match f with Some (_, e) => e | None => 0 end in
  (value from_field, value subj_field,
   match from_field, subj_field with
   | None, None => raw_text
   | _, _ => strip (skipn (Nat.max (stop from_field) (stop subj_field)) raw_text)
   end).

(** ** Recovery, said without patterns *)

(** The index of the last closing brace of [s]. *)
Fixpoint last_close (s : pystr) : option nat :=
  match s with
  | [] => None
  | c :: t =>
    match last_close t with
    | Some n => Some (S n)
    | None => if Ascii.eqb "}" c then Some 0 else None
    end
  end.

(** The text from the first opening brace to the last closing brace after
    it, both included. *)
Fixpoint brace_span (s : pystr) : option pystr :=
  match s with
  | [] => None
  | c :: t =>
    if Ascii.eqb "{" c then
      match last_close t with
      | Some n => Some (c :: firstn (S n) t)
      | None => None
      end
    else brace_span t
  end.

(** The leading run of word characters. *)
Fixpoint word_run (s : pystr) : pystr :=
  match s with
  | c :: t => if isword c then c :: word_run t else []
  | [] => []
  end.

(** Every maximal run of word characters that a colon follows is put
    between double quotes; [pending] is the run under way, last character
    first. *)
Fixpoint quote_keys_from (pending : pystr) (s : pystr) : pystr :=
  match s with
  | [] => rev pending
  | c :: t =>
    if isword c then quote_keys_from (c :: pending) t
    else if Ascii.eqb ":" c && negb (PyStr.eqb pending [])
    then dq :: rev pending ++ dq :: c :: quote_keys_from [] t
    else rev pending ++ c :: quote_keys_from [] t
  end.

Definition quote_keys (s : pystr) : pystr := quote_keys_from [] s.

(** The recovery in its four steps. *)
Definition recover_direct (depth : nat) (text : pystr) : json :=
  match text with
  | [] => JObj []
  | _ :: _ =>
    match json_loads depth text with
    | Some v => v
    | None =>
      match brace_span text with
      | None => default_analysis
      | Some span =>
        match json_loads depth span with
        | Some v => v
        | None =>
          match json_loads depth (requote (quote_keys span)) with
          | Some v => v
          | None => default_analysis
          end
        end
      end
    end
  end.

(** The example of the specification: bare keys and single quotes. *)
Definition bare_response : pystr :=
  lit "{phishing_likelihood: 0.8, confidence: 0.9, insights: ['x'], reasoning: 'y', recommended_action: 'z'}".

(** Two objects in one answer. *)
Definition two_objects_response : pystr :=
  lit "first {" ++ quoted "confidence" ++ lit ": 1} then {" ++ quoted "confidence" ++ lit ": 2} last".




(** ** Further vocabulary *)

(** The seconds slept among the effects of a call. *)
Fixpoint total_sleep (effects : list effect) : nat :=
  match effects with
  | [] => 0
  | Invoke _ _ :: effects' => total_sleep effects'
  | Sleep seconds :: effects' => seconds + total_sleep effects'
  end.

(** The models asked, in order. *)
Fixpoint models_asked (effects : list effect) : list pystr :=
  match effects with
  | [] => []
  | Invoke model _ :: effects' => model :: models_asked effects'
  | Sleep _ :: effects' => models_asked effects'
  end.

(** A remote capability that always fails with the same message. *)
Definition always_failing (error_msg : pystr) (n : nat) (model prompt : pystr) : outcome :=
  Failed error_msg.

(** The number of insights that mention a keyword. *)
Fixpoint matching (insights : list pystr) : nat :=
  match insights with
  | [] => 0
  | insight :: insights' =>
    (if mentions_keyword insight then 1 else 0) + matching insights'
  end.

(** An answer in a fenced block, with prose around it. *)
Definition fenced_open : pystr :=
  lit "Here is my analysis:" ++ nl :: lit "```json" ++ [nl].

Definition fenced_body : pystr :=
  quoted "phishing_likelihood" ++ lit ": 0.9, " ++ quoted "insights" ++ lit ": []".

Definition fenced_close : pystr := nl :: lit "```" ++ nl :: lit "Stay safe!".

(** [x] is a contiguous piece of [s]. *)
Definition part_of (x s : pystr) : Prop := exists a b, s = a ++ x ++ b.

(** Two long emails that differ after the 5000th character of the body. *)
Definition long_email (tail : string) : pystr :=
  lit "From: a@b.com" ++ nl :: lit "Subject: Hi" ++ nl :: repeat "x"%char 5000 ++ lit tail.

(** A colon directly follows a word character somewhere in [s];
    [after_word] tells whether a word character comes just before [s]. *)
Fixpoint colon_after_word (after_word : bool) (s : pystr) : bool :=
  match s with
  | [] => false
  | c :: t => (after_word && Ascii.eqb ":" c) || colon_after_word (isword c) t
  end.

(** * The password utilities of [pass_gen.py] *)

Module PassGen.

(** The classes [[A-Z]], [[a-z]], [[0-9]] and the class of special
    characters of the checker. *)
Definition is_upper (c : ascii) : bool := between 65 90 (code c).
Definition is_lower (c : ascii) : bool := between 97 122 (code c).
Definition is_digit (c : ascii) : bool := between 48 57 (code c).
Definition is_special (c : ascii) : bool :=
  existsb (Ascii.eqb c) (lit "!@#$%^&*(),.?" ++ dq :: lit ":{}|<>").

(** [re.search(r, s) is not None] *)
Definition found (r : regex) (s : pystr) : bool :=
  match search r s with
  | Some _ => true
  | None => false
  end.

(** [re.search(r'(.)\1{2,}', s)]: a character other than the newline that
    is followed by itself at least twice. *)
Fixpoint has_triple (s : pystr) : bool :=
  match s with
  | a :: t =>
    match t with
    | b :: c :: _ =>
      (negb (Ascii.eqb a nl) && Ascii.eqb a b && Ascii.eqb b c) || has_triple t
    | _ => false
    end
  | [] => false
  end.

(** [len(set(s))] *)
Fixpoint distinct (s : pystr) : nat :=
  match s with
  | [] => 0
  | c :: t => if existsb (Ascii.eqb c) t then distinct t else S (distinct t)
  end.

(** [sum] of a list of booleans *)
Definition sum_bools (bs : list bool) : nat :=
  fold_left (fun acc (b : bool) => acc + (if b then 1 else 0)) bs 0.

(** [get_security_insights] *)
Definition get_security_insights (password : pystr) : list pystr :=
  let insights := [] in
  let insights :=
    if length password <? 12
    then insights ++ [lit "Consider using at least 12 characters."] else insights in
  let insights :=
    if negb (found (RChar is_upper) password)
    then insights ++ [lit "Include at least one uppercase letter."] else insights in
  let insights :=
    if negb (found (RChar is_lower) password)
    then insights ++ [lit "Include at least one lowercase letter."] else insights in
  let insights :=
    if negb (found (RChar is_digit) password)
    then insights ++ [lit "Include at least one number."] else insights in
  let insights :=
    if negb (found (RChar is_special) password)
    then insights ++ [lit "Include at least one special character."] else insights in
  let insights :=
    if has_triple password
    then insights ++ [lit "Avoid repeating characters."] else insights in
  let insights :=
    (* len(set(password)) < len(password) / 2, compared exactly *)
    if 2 * distinct password <? length password
    then insights ++ [lit "Avoid using too many similar characters."] else insights in
  insights.

(** [check_strength] *)
Definition check_strength (password : pystr) : pystr * list pystr :=
  let length_score := 12 <=? length password in
  let upper_score := found (RChar is_upper) password in
  let lower_score := found (RChar is_lower) password in
  let number_score := found (RChar is_digit) password in
  let special_score := found (RChar is_special) password in
  let score :=
    sum_bools [length_score; upper_score; lower_score; number_score; special_score] in
  let strength := lit "Weak" in
  let strength :=
    if 4 <=? score then lit "Strong"
    else if score =? 3 then lit "Moderate"
    else strength in
  (strength, get_security_insights password).

End PassGen.

(** * Properties *)

(** ** Strings *)

Lemma lstrip_all_space (s : pystr) :
  Forall (fun c => isspace c = true) s -> lstrip s = [].
Proof.
  induction 1 as [| c s Hc _ IH]; simpl; [reflexivity |].
  rewrite Hc. exact IH.
Qed.

Lemma strip_all_space (s : pystr) :
  Forall (fun c => isspace c = true) s -> strip s = [].
Proof.
  intros H. unfold strip, rstrip. rewrite (lstrip_all_space s H). reflexivity.
Qed.

Lemma is_blank_all_space (s : pystr) :
  Forall (fun c => isspace c = true) s -> is_blank s = true.
Proof.
  intros H. unfold is_blank. destruct s as [| c s']; [reflexivity |].
  rewrite (strip_all_space _ H). reflexivity.
Qed.

(** ** The empty-input verdict *)

Section EmptyInput.

Variable hash : pystr -> Z.
Variable float_of_str : wstr -> option float.
Variable unicode_lower : N -> wstr.
Variable depth_limit : nat.
Variable generate : nat -> pystr -> pystr -> outcome.

(** C2. For an empty or whitespace-only email text, [analyze_email] returns
    the error verdict (risk level Suspicious, confidence 50.0, the single
    reason "Error in analysis process", the recommendation "Manual review
    required"), leaves the detector (cache and call counter) as it was and
    has no effect: no remote invocation and no sleep, whatever the hash and
    the remote capability are. *)
Theorem analyze_email_blank (d : detector) (email_text : pystr) :
  Forall (fun c => isspace c = true) email_text ->
  analyze_email hash float_of_str unicode_lower depth_limit generate d email_text =
    (Ok {| timestamp := lit "2025-03-07 14:05:36";
           risk_level := SUSPICIOUS;
           confidence := 50.0;
           reasons := JArr [JStr (wlit "Error in analysis process")];
           recommended_action := JStr (wlit "Manual review required");
           analysis := JStr (wlit "Empty email text") |},
     d, []).
Proof.
  intros Hws. unfold analyze_email.
  rewrite (is_blank_all_space _ Hws). reflexivity.
Qed.

End EmptyInput.

Lemma analyze_email_blank_witness :
  let text := lit "  " ++ [nl; ascii_of_nat 9; ascii_of_nat 160] in
  Forall (fun c => isspace c = true) text /\
  analyze_email poly_hash no_float_of_str no_unicode_lower ample_depth (scripted []) (new_detector false) text =
    (Ok (_error_response (lit "Empty email text")), new_detector false, []).
Proof.
  split.
  - repeat constructor.
  - apply (analyze_email_blank poly_hash no_float_of_str no_unicode_lower ample_depth (scripted [])).
    repeat constructor.
Defined.

(** ** The timestamp *)

Section Timestamp.

Variable hash : pystr -> Z.
Variable float_of_str : wstr -> option float.
Variable unicode_lower : N -> wstr.
Variable depth_limit : nat.
Variable generate : nat -> pystr -> pystr -> outcome.

Lemma assemble_timestamp (a : json) (v : verdict) :
  assemble float_of_str unicode_lower a = Ok v -> timestamp v = fixed_timestamp.
Proof.
  unfold assemble, bind. intros H.
  repeat match type of H with
         | match ?x with _ => _ end = _ => destruct x; try discriminate
         end.
  injection H as <-. reflexivity.
Qed.

(** C10. Every verdict that [analyze_email] returns, the error verdict of an
    empty input included, carries the timestamp "2025-03-07 14:05:36",
    whatever the input, the detector and the remote capability are. *)
Theorem analyze_email_timestamp (d d' : detector) (email_text : pystr)
    (v : verdict) (effects : list effect) :
  analyze_email hash float_of_str unicode_lower depth_limit generate d email_text = (Ok v, d', effects) ->
  timestamp v = lit "2025-03-07 14:05:36".
Proof.
  unfold analyze_email. destruct (is_blank email_text).
  - intros H. injection H as <- _ _. reflexivity.
  - destruct (_extract_email_parts email_text) as [[sender subject] body].
    intros H.
    repeat match type of H with
           | (let '(_, _) := ?x in _) = _ => destruct x as [[? ?] ?]
           end.
    injection H as H _ _. exact (assemble_timestamp _ _ H).
Qed.

End Timestamp.

Lemma analyze_email_timestamp_witness :
  let gen := scripted [Returned (lit "{}")] in
  let r := analyze_email poly_hash no_float_of_str no_unicode_lower ample_depth gen (new_detector false) (lit "hello") in
  exists v d' effects, r = (Ok v, d', effects) /\ timestamp v = lit "2025-03-07 14:05:36".
Proof.
  eexists _, _, _. split.
  - vm_compute. reflexivity.
  - eapply (analyze_email_timestamp poly_hash no_float_of_str no_unicode_lower ample_depth
              (scripted [Returned (lit "{}")]) (new_detector false) _ (lit "hello")).
    vm_compute. reflexivity.
Defined.

(** ** Prompt rendering *)

Lemma build_prompt_shape (sender subject body : pystr) :
  _build_prompt sender subject body =
  prompt_before sender subject
  ++ (if 5000 <? length body then firstn 5000 body ++ lit "...[truncated]" else body)
  ++ prompt_tail.
Proof.
  unfold _build_prompt, prompt_before, max_body_len, truncation_marker.
  repeat (rewrite <- ?app_assoc; simpl). reflexivity.
Qed.

(** C8. A body of more than 5000 characters is rendered as its first 5000
    characters followed by the marker "...[truncated]" and nothing else of
    the body, so that the prompt is 5014 characters longer than the template
    around it; a body of at most 5000 characters is embedded unchanged. The
    prompt is a function of the three fields alone. *)
Theorem build_prompt_truncation (sender subject body : pystr) :
  (5000 < length body ->
     _build_prompt sender subject body =
       prompt_before sender subject ++ firstn 5000 body ++ lit "...[truncated]" ++ prompt_tail
     /\ length (_build_prompt sender subject body) =
       length (prompt_before sender subject) + 5000 + 14 + length prompt_tail)
  /\ (length body <= 5000 ->
     _build_prompt sender subject body =
       prompt_before sender subject ++ body ++ prompt_tail).
Proof.
  rewrite build_prompt_shape. split; intros H.
  - assert (Hlt : (5000 <? length body) = true) by (apply Nat.ltb_lt; exact H).
    rewrite Hlt. rewrite <- app_assoc. split; [reflexivity |].
    rewrite !length_app, firstn_length_le by lia.
    change (length (lit "...[truncated]")) with 14. lia.
  - assert (Hge : (5000 <? length body) = false) by (apply Nat.ltb_ge; exact H).
    rewrite Hge. reflexivity.
Qed.

Lemma build_prompt_truncation_witness :
  let body := repeat "a"%char 6000 in
  5000 < length body /\
  _build_prompt (lit "a@b.com") (lit "Hi") body =
    prompt_before (lit "a@b.com") (lit "Hi")
    ++ repeat "a"%char 5000 ++ lit "...[truncated]" ++ prompt_tail.
Proof.
  assert (H : 5000 < length (repeat "a"%char 6000)).
  { rewrite repeat_length. apply Nat.ltb_lt. vm_compute. reflexivity. }
  split; [exact H |].
  destruct (build_prompt_truncation (lit "a@b.com") (lit "Hi") (repeat "a"%char 6000))
    as [Hlong _].
  destruct (Hlong H) as [Heq _]. rewrite Heq.
  vm_compute. reflexivity.
Defined.

(** ** The remote client *)

Section Retry.

Variable generate : nat -> pystr -> pystr -> outcome.

(** The three attempts of the client, written out. *)
Lemma call_unrolled (prompt : pystr) (d : detector) :
  _call_gemini_with_retry generate prompt d =
  let n := api_calls d in
  let m0 := lit "gemini-2.0-flash" in
  let m1 := lit "gemini-1.5-flash" in
  let m2 := lit "gemini-1.0-pro" in
  match generate n m0 prompt with
  | Returned t => (t, add_calls 1 d, [Invoke m0 prompt])
  | Failed e0 =>
    match generate (S n) m1 prompt with
    | Returned t =>
      (t, add_calls 2 d, [Invoke m0 prompt; Sleep (pause 0 e0); Invoke m1 prompt])
    | Failed e1 =>
      let first_two :=
        [Invoke m0 prompt; Sleep (pause 0 e0); Invoke m1 prompt; Sleep (pause 1 e1)] in
      match generate (S (S n)) m2 prompt with
      | Returned t => (t, add_calls 3 d, first_two ++ [Invoke m2 prompt])
      | Failed e2 =>
        if rate_limited e2
        then (lit "{}", add_calls 3 d, first_two ++ [Invoke m2 prompt; Sleep 6])
        else (exhausted_payload e2, add_calls 3 d, first_two ++ [Invoke m2 prompt])
      end
    end
  end.
Proof.
  unfold _call_gemini_with_retry, MAX_RETRIES, pause, rate_limited.
  cbn [retry_loop]. cbv zeta.
  change (nth (Nat.min 0 (length models_to_try - 1)) models_to_try [])
    with (lit "gemini-2.0-flash").
  change (nth (Nat.min 1 (length models_to_try - 1)) models_to_try [])
    with (lit "gemini-1.5-flash").
  change (nth (Nat.min 2 (length models_to_try - 1)) models_to_try [])
    with (lit "gemini-1.0-pro").
  change (api_calls (count_call (count_call d))) with (S (S (api_calls d))).
  change (api_calls (count_call d)) with (S (api_calls d)).
  destruct (generate (api_calls d) _ prompt) as [t0 | e0]; [reflexivity |].
  destruct (generate (S (api_calls d)) _ prompt) as [t1 | e1].
  - destruct (contains (lit "rate limit") (lower e0)); reflexivity.
  - destruct (generate (S (S (api_calls d))) _ prompt) as [t2 | e2].
    + destruct (contains (lit "rate limit") (lower e0));
        destruct (contains (lit "rate limit") (lower e1)); reflexivity.
    + destruct (contains (lit "rate limit") (lower e0));
        destruct (contains (lit "rate limit") (lower e1));
        destruct (contains (lit "rate limit") (lower e2)); reflexivity.
Qed.

(** One attempt that succeeds ends the loop with the answer. *)
Lemma retry_loop_returned (prompt t : pystr) (r attempt : nat) (d : detector) :
  generate (api_calls d) (tier attempt) prompt = Returned t ->
  retry_loop generate prompt (S r) attempt d =
    (t, count_call d, [Invoke (tier attempt) prompt]).
Proof.
  intros H. cbn [retry_loop]. cbv zeta. fold (tier attempt). rewrite H. reflexivity.
Qed.

(** One attempt that fails, and is followed by another. *)
Lemma retry_loop_failed (prompt e : pystr) (r attempt : nat) (d : detector) :
  generate (api_calls d) (tier attempt) prompt = Failed e ->
  rate_limited e = true \/ attempt < MAX_RETRIES - 1 ->
  retry_loop generate prompt (S r) attempt d =
    let '(text, d', effects) := retry_loop generate prompt r (S attempt) (count_call d) in
    (text, d', Invoke (tier attempt) prompt :: Sleep (pause attempt e) :: effects).
Proof.
  intros H Hnext. cbn [retry_loop]. cbv zeta. fold (tier attempt). rewrite H.
  unfold pause. fold (rate_limited e).
  destruct (rate_limited e); [reflexivity |].
  destruct Hnext as [Hlim | Hlt]; [discriminate |].
  apply Nat.ltb_lt in Hlt. rewrite Hlt. reflexivity.
Qed.

(** C4. Attempt number [i] of the client asks the model
    [models_to_try[min(i, 2)]]: gemini-2.0-flash, then gemini-1.5-flash, then
    gemini-1.0-pro. An attempt that succeeds returns the answer. After a
    failed attempt that is followed by another one (the message mentions a
    rate limit, or the attempt is not the last) the client sleeps
    [(i + 1) * 2] seconds when the message mentions a rate limit and 1 second
    otherwise, and the next attempt asks the next model in both cases. When
    the capability fails twice and then answers, the third invocation asks
    gemini-1.0-pro and the answer is returned, after three counted calls. *)
Theorem retry_schedule (prompt : pystr) :
  (forall r attempt d t,
     generate (api_calls d) (tier attempt) prompt = Returned t ->
     retry_loop generate prompt (S r) attempt d =
       (t, count_call d, [Invoke (tier attempt) prompt])) /\
  (forall r attempt d e,
     generate (api_calls d) (tier attempt) prompt = Failed e ->
     rate_limited e = true \/ attempt < MAX_RETRIES - 1 ->
     retry_loop generate prompt (S r) attempt d =
       let '(text, d', effects) :=
         retry_loop generate prompt r (S attempt) (count_call d) in
       (text, d',
        Invoke (tier attempt) prompt ::
        Sleep (if rate_limited e then (attempt + 1) * 2 else 1) :: effects)) /\
  (tier 0 = lit "gemini-2.0-flash" /\ tier 1 = lit "gemini-1.5-flash" /\
   forall i, 2 <= i -> tier i = lit "gemini-1.0-pro") /\
  (forall d e0 e1 t,
     generate (api_calls d) (lit "gemini-2.0-flash") prompt = Failed e0 ->
     generate (S (api_calls d)) (lit "gemini-1.5-flash") prompt = Failed e1 ->
     generate (S (S (api_calls d))) (lit "gemini-1.0-pro") prompt = Returned t ->
     _call_gemini_with_retry generate prompt d =
       (t, add_calls 3 d,
        [Invoke (lit "gemini-2.0-flash") prompt; Sleep (pause 0 e0);
         Invoke (lit "gemini-1.5-flash") prompt; Sleep (pause 1 e1);
         Invoke (lit "gemini-1.0-pro") prompt])).
Proof.
  split; [| split; [| split]].
  - intros r attempt d t H. exact (retry_loop_returned prompt t r attempt d H).
  - intros r attempt d e H Hnext.
    exact (retry_loop_failed prompt e r attempt d H Hnext).
  - split; [reflexivity | split; [reflexivity |]].
    intros i Hi. unfold tier.
    change (length models_to_try - 1) with 2.
    rewrite (Nat.min_r i 2 Hi). reflexivity.
  - intros d e0 e1 t H0 H1 H2.
    rewrite call_unrolled. cbv zeta. rewrite H0, H1, H2. reflexivity.
Qed.

End Retry.

Lemma retry_schedule_witness :
  _call_gemini_with_retry (scripted fails_twice) (lit "p") (new_detector false) =
    (lit "{}", add_calls 3 (new_detector false),
     [Invoke (lit "gemini-2.0-flash") (lit "p"); Sleep 1;
      Invoke (lit "gemini-1.5-flash") (lit "p"); Sleep 4;
      Invoke (lit "gemini-1.0-pro") (lit "p")]).
Proof.
  exact (proj2 (proj2 (proj2 (retry_schedule (scripted fails_twice) (lit "p"))))
           (new_detector false) (lit "timeout") (lit "quota: RATE LIMIT hit") (lit "{}")
           eq_refl eq_refl eq_refl).
Defined.

(** After a failure whose message mentions a rate limit the next attempt
    asks the next model: the tier advances. *)
Lemma rate_limit_advances_tier :
  _call_gemini_with_retry (scripted limited_once) (lit "p") (new_detector false) =
    (lit "{}", add_calls 2 (new_detector false),
     [Invoke (lit "gemini-2.0-flash") (lit "p"); Sleep 2;
      Invoke (lit "gemini-1.5-flash") (lit "p")]).
Proof. vm_compute. reflexivity. Qed.

(** When the third attempt fails with a message that mentions a rate limit,
    the client sleeps 6 seconds, leaves the loop and returns the text of an
    empty object, which is not the payload of the other failures and which
    the recoverer turns into an empty dictionary. *)
Lemma limited_at_last_returns_empty_object :
  _call_gemini_with_retry (scripted limited_at_last) (lit "p") (new_detector false) =
    (lit "{}", add_calls 3 (new_detector false),
     [Invoke (lit "gemini-2.0-flash") (lit "p"); Sleep 1;
      Invoke (lit "gemini-1.5-flash") (lit "p"); Sleep 1;
      Invoke (lit "gemini-1.0-pro") (lit "p"); Sleep 6]) /\
  lit "{}" <> exhausted_payload (lit "429 Rate limit exceeded") /\
  _extract_json ample_depth (lit "{}") = JObj [] /\
  _extract_json ample_depth (lit "{}") <> sentinel (lit "429 Rate limit exceeded").
Proof.
  split; [vm_compute; reflexivity |].
  split; [discriminate |].
  split; [vm_compute; reflexivity |].
  vm_compute. discriminate.
Qed.

(** ** The response cache *)

Section Cache.

Variable hash : pystr -> Z.
Variable float_of_str : wstr -> option float.
Variable unicode_lower : N -> wstr.
Variable depth_limit : nat.
Variable generate : nat -> pystr -> pystr -> outcome.

(** The client touches neither the debug flag nor the cache, and invokes
    the capability between one and three times. *)
Lemma call_frame (prompt : pystr) (d : detector) :
  let '(text, d', effects) := _call_gemini_with_retry generate prompt d in
  debug d' = debug d /\ _cache d' = _cache d /\
  1 <= invocations effects <= 3 /\
  api_calls d' = invocations effects + api_calls d.
Proof.
  rewrite call_unrolled. cbv zeta.
  destruct (generate (api_calls d) _ prompt) as [t0 | e0];
    [cbn; split_and!; (reflexivity || lia) |].
  destruct (generate (S (api_calls d)) _ prompt) as [t1 | e1];
    [cbn; split_and!; (reflexivity || lia) |].
  destruct (generate (S (S (api_calls d))) _ prompt) as [t2 | e2];
    [cbn; split_and!; (reflexivity || lia) |].
  destruct (rate_limited e2); cbn; split_and!; (reflexivity || lia).
Qed.

(** What a call on a non-blank text does to the detector. *)
Lemma analyze_email_store (d : detector) (email_text : pystr) :
  is_blank email_text = false ->
  let '(r, d', effects) := analyze_email hash float_of_str unicode_lower depth_limit generate d email_text in
  let key := hash (rendered_prompt email_text) in
  exists response_text,
    _cache d' !! key = Some response_text /\
    r = assemble float_of_str unicode_lower (_extract_json depth_limit response_text) /\
    debug d' = debug d /\
    dom (_cache d') = {[ key ]} ∪ dom (_cache d) /\
    invocations effects <= 3 /\
    (debug d = false -> forall cached, _cache d !! key = Some cached ->
       response_text = cached /\ d' = d /\ effects = []) /\
    (debug d = true \/ _cache d !! key = None -> 1 <= invocations effects).
Proof.
  intros Hnb. unfold analyze_email, rendered_prompt. rewrite Hnb.
  destruct (_extract_email_parts email_text) as [[sender subject] body].
  set (prompt := _build_prompt sender subject body).
  pose proof (call_frame prompt d) as Hcall.
  destruct (_call_gemini_with_retry generate prompt d) as [[text d1] effects].
  destruct Hcall as (Hdebug & Hcache & Hcount & _).
  assert (Hmiss :
    exists response_text,
      _cache (cache_put d1 (hash prompt) text) !! hash prompt = Some response_text /\
      assemble float_of_str unicode_lower (_extract_json depth_limit text) =
        assemble float_of_str unicode_lower (_extract_json depth_limit response_text) /\
      debug (cache_put d1 (hash prompt) text) = debug d /\
      dom (_cache (cache_put d1 (hash prompt) text)) = {[ hash prompt ]} ∪ dom (_cache d) /\
      invocations effects <= 3 /\ 1 <= invocations effects).
  { exists text. unfold cache_put. cbn [_cache debug]. rewrite lookup_insert_eq, dom_insert_L, Hcache.
    repeat split; try assumption; lia. }
  destruct (_cache d !! hash prompt) as [cached |] eqn:Hlook.
  - destruct (debug d) eqn:Hd; cbn [negb].
    + destruct Hmiss as (rt & H1 & H2 & H3 & H4 & H5 & H6).
      exists rt. split_and!; try assumption.
      * intros Hf. discriminate.
      * intros _. exact H6.
    + exists cached. split_and!; try reflexivity; try assumption.
      * apply set_eq. intros k. rewrite elem_of_union, elem_of_singleton.
        split; [tauto |]. intros [-> | H]; [| exact H].
        apply elem_of_dom. exists cached. exact Hlook.
      * cbn [invocations]. lia.
      * intros _ c Hc. injection Hc as <-. split_and!; reflexivity.
      * intros [Hf | Hf]; discriminate.
  - destruct Hmiss as (rt & H1 & H2 & H3 & H4 & H5 & H6).
    exists rt. split_and!; try assumption.
    + intros _ c Hc. discriminate.
    + intros _. exact H6.
Qed.

(** With the debug flag off, a call keeps the flag and every cache entry. *)
Lemma analyze_email_cache_grows (d : detector) (email_text : pystr) :
  debug d = false ->
  let '(r, d', effects) := analyze_email hash float_of_str unicode_lower depth_limit generate d email_text in
  debug d' = false /\
  forall k v, _cache d !! k = Some v -> _cache d' !! k = Some v.
Proof.
  intros Hd. unfold analyze_email.
  destruct (is_blank email_text); [split; [exact Hd | tauto] |].
  destruct (_extract_email_parts email_text) as [[sender subject] body].
  set (prompt := _build_prompt sender subject body).
  pose proof (call_frame prompt d) as Hcall.
  destruct (_call_gemini_with_retry generate prompt d) as [[text d1] effects].
  destruct Hcall as (Hdebug & Hcache & _).
  rewrite Hd. cbn [negb].
  destruct (_cache d !! hash prompt) as [cached |] eqn:Hlook.
  - split; [exact Hd | tauto].
  - unfold cache_put. cbn [_cache debug]. split; [congruence |].
    intros k v Hk. rewrite Hcache.
    destruct (decide (k = hash prompt)) as [-> | Hne]; [congruence |].
    rewrite lookup_insert_ne by congruence. exact Hk.
Qed.

Lemma analyze_all_cache_grows (emails : list pystr) (d : detector) :
  debug d = false ->
  let '(rs, d', effects) := analyze_all hash float_of_str unicode_lower depth_limit generate d emails in
  debug d' = false /\
  forall k v, _cache d !! k = Some v -> _cache d' !! k = Some v.
Proof.
  revert d. induction emails as [| email_text emails IH]; intros d Hd.
  - split; [exact Hd | tauto].
  - cbn [analyze_all].
    pose proof (analyze_email_cache_grows d email_text Hd) as H1.
    destruct (analyze_email hash float_of_str unicode_lower depth_limit generate d email_text) as [[r d1] e1].
    destruct H1 as [Hd1 Hkeep1].
    pose proof (IH d1 Hd1) as H2.
    destruct (analyze_all hash float_of_str unicode_lower depth_limit generate d1 emails) as [[rs d2] e2].
    destruct H2 as [Hd2 Hkeep2].
    split; [exact Hd2 |]. intros k v Hk. apply Hkeep2, Hkeep1, Hk.
Qed.

(** C9. With the debug flag off, of two calls on non-blank texts that
    render the same prompt, whatever calls are made between them, the later
    one is served from the cache: it invokes nothing, sleeps never, leaves
    the detector as it is and returns the result of the earlier call. The
    earlier call invokes the remote capability at most three times, and at
    least once when the hash of its prompt is not yet a key of the cache.
    The keys of the cache after a call are those before it and the hash of
    the rendered prompt, so that the cache holds one entry for a prompt
    however often it is analysed. *)
Theorem analyze_email_cached (d d1 d2 : detector) (text1 text2 : pystr)
    (others : list pystr) (r1 : pyres verdict) (rs : list (pyres verdict))
    (e1 e2 : list effect) :
  debug d = false ->
  is_blank text1 = false ->
  is_blank text2 = false ->
  rendered_prompt text1 = rendered_prompt text2 ->
  analyze_email hash float_of_str unicode_lower depth_limit generate d text1 = (r1, d1, e1) ->
  analyze_all hash float_of_str unicode_lower depth_limit generate d1 others = (rs, d2, e2) ->
  analyze_email hash float_of_str unicode_lower depth_limit generate d2 text2 = (r1, d2, []) /\
  invocations e1 <= 3 /\
  (_cache d !! hash (rendered_prompt text1) = None -> 1 <= invocations e1) /\
  dom (_cache d1) = {[ hash (rendered_prompt text1) ]} ∪ dom (_cache d).
Proof.
  intros Hd Hnb1 Hnb2 Hsame Hfirst Hbetween.
  pose proof (analyze_email_store d text1 Hnb1) as H1. rewrite Hfirst in H1.
  cbv zeta in H1. destruct H1 as (rt & Hkey & Hr1 & Hd1 & Hdom & Hle & _ & Hge).
  pose proof (analyze_all_cache_grows others d1 ltac:(congruence)) as H2.
  rewrite Hbetween in H2. destruct H2 as [Hd2 Hkeep].
  pose proof (analyze_email_store d2 text2 Hnb2) as H3.
  destruct (analyze_email hash float_of_str unicode_lower depth_limit generate d2 text2) as [[r3 d3] e3].
  cbv zeta in H3. destruct H3 as (rt' & _ & Hr3 & _ & _ & _ & Hhit & _).
  rewrite <- Hsame in Hhit.
  destruct (Hhit Hd2 rt (Hkeep _ _ Hkey)) as (-> & -> & ->).
  split_and!.
  - congruence.
  - exact Hle.
  - intros Hnone. apply Hge. right. exact Hnone.
  - exact Hdom.
Qed.

End Cache.

Lemma analyze_email_cached_witness :
  let gen := scripted [Returned (lit "{}"); Returned (lit "[]")] in
  let d := new_detector false in
  let text1 := sample_email in
  let text2 := sample_email ++ lit "   " in
  let first := analyze_email poly_hash no_float_of_str no_unicode_lower ample_depth gen d text1 in
  let d1 := snd (fst first) in
  let run := analyze_all poly_hash no_float_of_str no_unicode_lower ample_depth gen d1 [lit "another email"] in
  let d2 := snd (fst run) in
  analyze_email poly_hash no_float_of_str no_unicode_lower ample_depth gen d2 text2 = (fst (fst first), d2, []) /\
  invocations (snd first) = 1.
Proof.
  cbv zeta.
  destruct (analyze_email poly_hash no_float_of_str no_unicode_lower ample_depth
              (scripted [Returned (lit "{}"); Returned (lit "[]")])
              (new_detector false) sample_email) as [[r1 d1] e1] eqn:Hfirst.
  cbn [fst snd].
  destruct (analyze_all poly_hash no_float_of_str no_unicode_lower ample_depth
              (scripted [Returned (lit "{}"); Returned (lit "[]")])
              d1 [lit "another email"]) as [[rs d2] e2] eqn:Hrun.
  cbn [fst snd].
  split.
  - apply (analyze_email_cached poly_hash no_float_of_str no_unicode_lower ample_depth
             (scripted [Returned (lit "{}"); Returned (lit "[]")])
             (new_detector false) d1 d2 sample_email (sample_email ++ lit "   ")
             [lit "another email"] r1 rs e1 e2);
      [reflexivity | vm_compute; reflexivity | vm_compute; reflexivity
      | vm_compute; reflexivity | exact Hfirst | exact Hrun].
  - vm_compute in Hfirst. injection Hfirst as _ _ <-. reflexivity.
Defined.

(** With the debug flag on, the second of two calls on the same text invokes
    the remote capability again. *)
Lemma debug_bypasses_cache :
  let gen := scripted [Returned (lit "{}"); Returned (lit "{}")] in
  invocations (snd (analyze_all poly_hash no_float_of_str no_unicode_lower ample_depth gen (new_detector true)
                      [sample_email; sample_email])) = 2.
Proof. vm_compute. reflexivity. Qed.

(** ** Risk scoring *)





(** Strings of a text among the strings of any code points. *)
Lemma cp_ascii (c : ascii) : ascii_of_N (cp c) = c.
Proof.
  unfold cp, code, nat_of_ascii. rewrite N2Nat.id. apply ascii_N_embedding.
Qed.

Lemma cp_bounded (c : ascii) : (cp c <? 256)%N = true.
Proof.
  unfold cp, code, nat_of_ascii. rewrite N2Nat.id.
  apply N.ltb_lt. apply N_ascii_bounded.
Qed.

Lemma cp_eqb (a b : ascii) : (cp a =? cp b)%N = Ascii.eqb a b.
Proof.
  destruct (Ascii.eqb_spec a b) as [-> | Hne].
  - apply N.eqb_refl.
  - apply N.eqb_neq. intros H. apply Hne.
    rewrite <- (cp_ascii a), <- (cp_ascii b), H. reflexivity.
Qed.

Section Lowering.

Variable unicode_lower : N -> wstr.

Lemma wlower_wide (s : pystr) : wlower unicode_lower (wide s) = wide (lower s).
Proof.
  induction s as [| c s IH]; [reflexivity |].
  cbn [wide map wlower flat_map lower] in *. unfold wlower_char at 1.
  rewrite cp_bounded, cp_ascii. cbn [app]. f_equal. exact IH.
Qed.

End Lowering.

(** All the characters, and the small letters. *)
Lemma in_all_chars (c : ascii) : In c (map ascii_of_nat (seq 0 256)).
Proof.
  rewrite <- (ascii_nat_embedding c). apply in_map. apply in_seq.
  pose proof (nat_ascii_bounded c). lia.
Qed.

Lemma in_small_letters (k : ascii) :
  between 97 122 (code k) = true -> In k (map ascii_of_nat (seq 97 26)).
Proof.
  intros H. rewrite <- (ascii_nat_embedding k). apply in_map. apply in_seq.
  unfold between, code in H. apply andb_true_iff in H as [H1 H2].
  apply Nat.leb_le in H1, H2. lia.
Qed.

(** A small letter is met in the lower-cased text where the text has the
    letter, small or capital. *)
Lemma lower_char_same_letter (k x : ascii) :
  between 97 122 (code k) = true ->
  Ascii.eqb k (lower_char x) = same_letter k x.
Proof.
  intros Hk.
  assert (Hall : forallb (fun k' =>
            forallb (fun x' => Bool.eqb (Ascii.eqb k' (lower_char x')) (same_letter k' x'))
              (map ascii_of_nat (seq 0 256)))
            (map ascii_of_nat (seq 97 26)) = true) by (vm_compute; reflexivity).
  rewrite forallb_forall in Hall. specialize (Hall k (in_small_letters k Hk)).
  rewrite forallb_forall in Hall. specialize (Hall x (in_all_chars x)).
  apply Bool.eqb_prop in Hall. exact Hall.
Qed.

Lemma wstartswith_lower (k s : pystr) :
  Forall (fun c => between 97 122 (code c) = true) k ->
  wstartswith (wide k) (wide (lower s)) = begins_with_word k s.
Proof.
  intros Hk. revert s. induction Hk as [| a k Ha _ IH]; intros s; [reflexivity |].
  destruct s as [| x s]; [reflexivity |].
  cbn [wide map lower wstartswith begins_with_word] in *.
  rewrite cp_eqb, (lower_char_same_letter a x Ha), IH. reflexivity.
Qed.

Lemma wcontains_lower (k s : pystr) :
  Forall (fun c => between 97 122 (code c) = true) k ->
  wcontains (wide k) (wide (lower s)) = word_occurs k s.
Proof.
  intros Hk. induction s as [| x s IH].
  - cbn [lower map wide wcontains word_occurs].
    rewrite <- (wstartswith_lower k [] Hk). reflexivity.
  - cbn [wcontains word_occurs]. rewrite <- IH, <- (wstartswith_lower k (x :: s) Hk).
    reflexivity.
Qed.

Lemma keywords_small :
  Forall (fun k => Forall (fun c => between 97 122 (code c) = true) (lit k)) keywords.
Proof. repeat constructor. Qed.

Section ScoringFacts.

Variable unicode_lower : N -> wstr.

(** The inner loop on the lower-cased text of an insight. *)
Lemma keyword_loop_float (ks : list string) (insight : pystr) (score : float) :
  Forall (fun k => Forall (fun c => between 97 122 (code c) = true) (lit k)) ks ->
  keyword_loop (map wlit ks) (wlower unicode_lower (wide insight)) (JFloat score) =
    Ok (JFloat (if existsb (fun k => word_occurs (lit k) insight) ks
                then (score + 0.1)%float else score)).
Proof.
  intros Hks. rewrite wlower_wide.
  induction Hks as [| k ks Hk _ IH]; cbn [map keyword_loop existsb]; [reflexivity |].
  unfold wlit at 1. rewrite (wcontains_lower (lit k) insight Hk).
  destruct (word_occurs (lit k) insight); cbn [orb]; [reflexivity | exact IH].
Qed.

Lemma insight_loop_float (insights : list pystr) (score : float) :
  insight_loop unicode_lower (map jstr insights) (JFloat score) =
    Ok (JFloat (accumulated score insights)).
Proof.
  revert score. induction insights as [| insight insights IH]; intros score;
    cbn [map insight_loop]; [reflexivity |].
  unfold jstr at 1. cbn [py_lower bind].
  change danger_keywords with (map wlit keywords).
  rewrite (keyword_loop_float keywords insight score keywords_small). cbn [bind].
  rewrite IH. reflexivity.
Qed.

(** The score of an object whose likelihood is a float and whose insights
    are strings. *)
Lemma phish_score_on_shape (members : list (wstr * json)) (likelihood : float)
    (insights : list pystr) :
  dict_get (wlit "phishing_likelihood") members = Some (JFloat likelihood) \/
  (dict_get (wlit "phishing_likelihood") members = None /\ likelihood = 0.5%float) ->
  dict_get (wlit "insights") members = Some (JArr (map jstr insights)) \/
  (dict_get (wlit "insights") members = None /\ insights = []) ->
  phish_score_of unicode_lower (JObj members) =
    Ok (JFloat (clamped (accumulated likelihood insights))).
Proof.
  intros Hlik Hins. unfold phish_score_of, py_get. cbn [bind].
  assert (H1 : match dict_get (wlit "phishing_likelihood") members with
               | Some v => v | None => JFloat 0.5 end = JFloat likelihood).
  { destruct Hlik as [-> | [-> ->]]; reflexivity. }
  assert (H2 : match dict_get (wlit "insights") members with
               | Some v => v | None => JArr [] end = JArr (map jstr insights)).
  { destruct Hins as [-> | [-> ->]]; reflexivity. }
  rewrite H1, H2. cbn [py_iter bind]. rewrite insight_loop_float. cbn [bind].
  unfold py_min. cbn [py_float_lt bind]. unfold clamped.
  destruct (1.0 <? accumulated likelihood insights)%float; reflexivity.
Qed.

(** The level of such an object. *)
Lemma calc_risk_level_on_shape (members : list (wstr * json)) (likelihood : float)
    (insights : list pystr) :
  dict_get (wlit "phishing_likelihood") members = Some (JFloat likelihood) \/
  (dict_get (wlit "phishing_likelihood") members = None /\ likelihood = 0.5%float) ->
  dict_get (wlit "insights") members = Some (JArr (map jstr insights)) \/
  (dict_get (wlit "insights") members = None /\ insights = []) ->
  _calc_risk_level unicode_lower (JObj members) =
    Ok (level_of (clamped (accumulated likelihood insights))).
Proof.
  intros Hlik Hins. unfold _calc_risk_level.
  rewrite (phish_score_on_shape members likelihood insights Hlik Hins). cbn [bind].
  cbn [py_lt_float bind]. unfold level_of.
  destruct (clamped (accumulated likelihood insights) <? 0.35)%float; [reflexivity |].
  cbn [py_lt_float bind].
  destruct (clamped (accumulated likelihood insights) <? 0.65)%float; reflexivity.
Qed.


End ScoringFacts.


(** ** The verdict of a call *)

Section Verdict.

Variable hash : pystr -> Z.
Variable float_of_str : wstr -> option float.
Variable unicode_lower : N -> wstr.
Variable depth_limit : nat.
Variable generate : nat -> pystr -> pystr -> outcome.

(** The loops keep a number a number. *)
Lemma keyword_loop_number (ks : list wstr) (il : wstr) (score : json) :
  is_score_number score = true ->
  exists score', keyword_loop ks il score = Ok score' /\ is_score_number score' = true.
Proof.
  intros H. induction ks as [| k ks IH]; cbn [keyword_loop]; [exists score; auto |].
  destruct (wcontains k il); [| exact IH].
  destruct score as [| b | z | f | s | items | ms]; try discriminate H; cbn [py_add_float].
  - eexists. split; reflexivity.
  - cbn [is_score_number] in H. destruct (float_of_int z); [| discriminate H].
    eexists. split; reflexivity.
  - eexists. split; reflexivity.
Qed.

Lemma insight_loop_number (items : list json) (score : json) :
  forallb is_str items = true ->
  is_score_number score = true ->
  exists score', insight_loop unicode_lower items score = Ok score' /\
                 is_score_number score' = true.
Proof.
  revert score. induction items as [| item items IH]; intros score Hitems Hscore.
  - exists score. auto.
  - cbn [forallb] in Hitems. apply andb_true_iff in Hitems as [Hitem Hitems].
    destruct item; try discriminate Hitem. cbn [insight_loop py_lower bind].
    destruct (keyword_loop_number danger_keywords (wlower unicode_lower s) score Hscore)
      as (score1 & -> & Hscore1).
    cbn [bind]. exact (IH score1 Hitems Hscore1).
Qed.

Lemma py_iter_strings (w : json) :
  string_items w = true ->
  exists items, py_iter w = Ok items /\ forallb is_str items = true.
Proof.
  destruct w; try discriminate; cbn [string_items py_iter]; intros H.
  - eexists. split; [reflexivity |]. induction s; [reflexivity | exact IHs].
  - eexists. split; [reflexivity | exact H].
Qed.

(** The scorer returns a level for an object with a number for likelihood
    and strings for insights. *)
Lemma calc_risk_level_total (members : list (wstr * json)) :
  is_score_number (field members "phishing_likelihood" (JFloat 0.5)) = true ->
  string_items (field members "insights" (JArr [])) = true ->
  exists level, _calc_risk_level unicode_lower (JObj members) = Ok level.
Proof.
  intros Hlik Hins. unfold _calc_risk_level, phish_score_of, py_get. cbn [bind].
  unfold field in Hlik, Hins.
  destruct (py_iter_strings _ Hins) as (items & -> & Hitems). cbn [bind].
  destruct (insight_loop_number items _ Hitems Hlik) as (score & -> & Hscore).
  cbn [bind]. unfold py_min.
  assert (Hnum : forall v, is_score_number v = true ->
            (exists b, py_float_lt 1.0 v = Ok b) /\
            (forall x, exists b, py_lt_float v x = Ok b)).
  { intros v Hv. destruct v; try discriminate Hv; cbn [py_float_lt py_lt_float];
      (split; [| intros x]); eexists; reflexivity. }
  destruct (proj1 (Hnum score Hscore)) as [b ->]. cbn [bind].
  assert (Hscore' : is_score_number (if b then JFloat 1.0 else score) = true)
    by (destruct b; [reflexivity | exact Hscore]).
  destruct (proj2 (Hnum _ Hscore') 0.35%float) as [b1 ->]. cbn [bind].
  destruct b1; [eexists; reflexivity |].
  destruct (proj2 (Hnum _ Hscore') 0.65%float) as [b2 ->]. cbn [bind].
  destruct b2; eexists; reflexivity.
Qed.

(** The record assembled from such an object. *)
Lemma assemble_total (members : list (wstr * json)) :
  is_score_number (field members "phishing_likelihood" (JFloat 0.5)) = true ->
  string_items (field members "insights" (JArr [])) = true ->
  exists level,
    _calc_risk_level unicode_lower (JObj members) = Ok level /\
    assemble float_of_str unicode_lower (JObj members) =
      Ok {| timestamp := lit "2025-03-07 14:05:36";
            risk_level := level;
            confidence :=
              match dict_get (wlit "confidence") members with
              | None => 50.0%float
              | Some (JFloat x) => (x * 100)%float
              | Some (JInt z) =>
                match float_of_int z with
                | Some x => (x * 100)%float
                | None => 50.0%float
                end
              | Some (JBool b) => ((if b then 1 else 0) * 100)%float
              | Some (JStr s) =>
                match float_of_str s with
                | Some x => (x * 100)%float
                | None => 50.0%float
                end
              | Some _ => 50.0%float
              end;
            reasons :=
              match field members "insights" (JArr []) with
              | JArr items => JArr (firstn 5 items)
              | JStr s => JStr (firstn 5 s)
              | other => other
              end;
            recommended_action :=
              field members "recommended_action" (JStr (wlit "Review email carefully"));
            analysis := field members "reasoning" (JStr []) |}.
Proof.
  intros Hlik Hins.
  destruct (calc_risk_level_total members Hlik Hins) as [level Hlevel].
  exists level. split; [exact Hlevel |].
  unfold assemble. rewrite Hlevel. unfold py_get, field in *. cbn [bind].
  assert (Hslice : py_slice5 match dict_get (wlit "insights") members with
                             | Some v => v | None => JArr [] end =
            Ok match match dict_get (wlit "insights") members with
                     | Some v => v | None => JArr [] end with
               | JArr items => JArr (firstn 5 items)
               | JStr s => JStr (firstn 5 s)
               | other => other
               end).
  { destruct (match dict_get (wlit "insights") members with
              | Some v => v | None => JArr [] end); try discriminate Hins; reflexivity. }
  rewrite Hslice. cbn [bind]. do 2 f_equal.
  unfold _format_confidence.
  destruct (dict_get (wlit "confidence") members) as [[| b | z | x | s | items | ms] |];
    reflexivity.
Qed.

Lemma assemble_non_object (a : json) :
  (forall members, a <> JObj members) ->
  assemble float_of_str unicode_lower a = Raise AttributeError.
Proof.
  intros H. destruct a; try reflexivity. exfalso. exact (H members eq_refl).
Qed.

(** C1. A call on a non-blank text returns what is assembled from the
    recovered answer, which the cache then holds under the hash of the
    prompt. When the recovered answer is an object whose likelihood is
    missing or a number (a float, a boolean, an int in the range of float)
    and whose insights are missing, a list of strings or one string, the
    call returns a verdict. Its level is the one that the scorer computes
    for the answer; its confidence is 100 times the value that
    [float] gives for the confidence of the answer, whatever that value is,
    and 50.0 when the confidence is missing or [float] rejects it (null, a
    list, an object, a string that [float] does not read, an int beyond the
    range of float); its reasons are the first five insights. When the
    recovered answer is not an object the call returns no verdict: it raises
    AttributeError. *)
Theorem analyze_email_verdict (d d' : detector) (email_text : pystr)
    (r : pyres verdict) (effects : list effect) :
  is_blank email_text = false ->
  analyze_email hash float_of_str unicode_lower depth_limit generate d email_text =
    (r, d', effects) ->
  exists response_text,
    _cache d' !! hash (rendered_prompt email_text) = Some response_text /\
    r = assemble float_of_str unicode_lower (_extract_json depth_limit response_text) /\
    ((forall members, _extract_json depth_limit response_text <> JObj members) ->
     r = Raise AttributeError) /\
    forall members,
      _extract_json depth_limit response_text = JObj members ->
      is_score_number (field members "phishing_likelihood" (JFloat 0.5)) = true ->
      string_items (field members "insights" (JArr [])) = true ->
      exists v, r = Ok v /\
        _calc_risk_level unicode_lower (JObj members) = Ok (risk_level v) /\
        confidence v =
          match dict_get (wlit "confidence") members with
          | None => 50.0%float
          | Some (JFloat x) => (x * 100)%float
          | Some (JInt z) =>
            match float_of_int z with
            | Some x => (x * 100)%float
            | None => 50.0%float
            end
          | Some (JBool b) => ((if b then 1 else 0) * 100)%float
          | Some (JStr s) =>
            match float_of_str s with
            | Some x => (x * 100)%float
            | None => 50.0%float
            end
          | Some _ => 50.0%float
          end /\
        reasons v =
          match field members "insights" (JArr []) with
          | JArr items => JArr (firstn 5 items)
          | JStr s => JStr (firstn 5 s)
          | other => other
          end /\
        recommended_action v =
          field members "recommended_action" (JStr (wlit "Review email carefully")) /\
        analysis v = field members "reasoning" (JStr []).
Proof.
  intros Hnb Hcall.
  pose proof (analyze_email_store hash float_of_str unicode_lower depth_limit generate
                d email_text Hnb) as H.
  rewrite Hcall in H. cbv zeta in H.
  destruct H as (response_text & Hkey & Hr & _).
  exists response_text. split_and!; [exact Hkey | exact Hr | |].
  - intros Hshape. rewrite Hr. exact (assemble_non_object _ Hshape).
  - intros members Hobj Hlik Hins.
    destruct (assemble_total members Hlik Hins) as (level & Hlevel & Hverdict).
    rewrite Hr, Hobj, Hverdict.
    eexists. split; [reflexivity |].
    cbn [risk_level confidence reasons recommended_action analysis].
    split_and!; [exact Hlevel | reflexivity ..].
Qed.

End Verdict.

Lemma analyze_email_verdict_witness :
  let gen := scripted [Returned int_response] in
  exists v d' effects,
    analyze_email poly_hash no_float_of_str no_unicode_lower ample_depth gen
      (new_detector false) sample_email = (Ok v, d', effects) /\
    risk_level v = DANGEROUS /\ confidence v = 90.0%float /\
    reasons v = JArr [JStr (wlit "Asks for the password")].
Proof.
  cbv zeta.
  destruct (analyze_email poly_hash no_float_of_str no_unicode_lower ample_depth
              (scripted [Returned int_response]) (new_detector false) sample_email)
    as [[r d'] effects] eqn:Hcall.
  destruct (analyze_email_verdict poly_hash no_float_of_str no_unicode_lower ample_depth
              (scripted [Returned int_response]) (new_detector false) d'
              sample_email r effects ltac:(vm_compute; reflexivity) Hcall)
    as (response_text & Hkey & Hr & _ & Hshape).
  vm_compute in Hcall. injection Hcall as Hr' Hd' He'.
  rewrite <- Hd' in Hkey. vm_compute in Hkey. injection Hkey as <-.
  destruct (Hshape
              [ (wlit "phishing_likelihood", JInt 1);
                (wlit "confidence", JFloat 0.9);
                (wlit "insights", JArr [JStr (wlit "Asks for the password")]) ]
              ltac:(vm_compute; reflexivity) ltac:(vm_compute; reflexivity)
              ltac:(vm_compute; reflexivity))
    as (v & Hv & _ & Hconf & Hreasons & _).
  exists v, d', effects. rewrite Hv. split_and!.
  - reflexivity.
  - rewrite Hv in Hr'. injection Hr' as <-. reflexivity.
  - rewrite Hconf. vm_compute. reflexivity.
  - rewrite Hreasons. reflexivity.
Defined.

(** An answer that is a list makes the call raise AttributeError, and an
    answer whose confidence is 5 gives a verdict of confidence 500. *)
Lemma analyze_email_raises_or_exceeds :
  fst (fst (analyze_email poly_hash no_float_of_str no_unicode_lower ample_depth
              (scripted [Returned list_response])
              (new_detector false) sample_email)) = Raise AttributeError /\
  match fst (fst (analyze_email poly_hash no_float_of_str no_unicode_lower ample_depth
                    (scripted [Returned overconfident_response])
                    (new_detector false) sample_email)) with
  | Ok v => confidence v = 500.0%float /\ (100 <? confidence v)%float = true
  | Raise _ => False
  end.
Proof. split; vm_compute; [reflexivity | split; reflexivity]. Qed.

(** ** Field extraction *)

Lemma mstate_eta (s : mstate) : MState (pos s) (rest s) (caps s) = s.
Proof. destruct s. reflexivity. Qed.

Lemma lstrip_length (s : pystr) : length (lstrip s) <= length s.
Proof.
  induction s as [| c s IH]; cbn [lstrip]; [lia |].
  destruct (isspace c); cbn [length]; lia.
Qed.

Lemma lstrip_skipn (s : pystr) : skipn (length s - length (lstrip s)) s = lstrip s.
Proof.
  induction s as [| c s IH]; [reflexivity |].
  cbn [lstrip]. pose proof (lstrip_length s) as Hle.
  destruct (isspace c).
  - replace (length (c :: s) - length (lstrip s)) with (S (length s - length (lstrip s)))
      by (cbn [length]; lia).
    exact IH.
  - rewrite Nat.sub_diag. reflexivity.
Qed.

Lemma line_of_firstn (s : pystr) : firstn (length (line_of s)) s = line_of s.
Proof.
  induction s as [| c s IH]; [reflexivity |].
  cbn [line_of]. destruct (Ascii.eqb c nl); [reflexivity |].
  cbn [length firstn]. rewrite IH. reflexivity.
Qed.

Lemma line_of_length (s : pystr) : length (line_of s) <= length s.
Proof.
  induction s as [| c s IH]; cbn [line_of]; [lia |].
  destruct (Ascii.eqb c nl); cbn [length]; lia.
Qed.

(** A literal under [re.I]. *)
Lemma run_word_i (w : pystr) (s : mstate) (k : cont) :
  run (word_i w) s k =
    match after_prefix_i w (rest s) with
    | Some r => k (MState (pos s + length w) r (caps s))
    | None => None
    end.
Proof.
  revert s. induction w as [| c w IH]; intros s.
  - cbn. rewrite Nat.add_0_r, mstate_eta. reflexivity.
  - cbn [word_i run chr_i after_prefix_i length].
    destruct (rest s) as [| x t]; [reflexivity |].
    destruct (Ascii.eqb (lower_char x) (lower_char c)); [| reflexivity].
    rewrite IH. cbn [pos rest caps]. rewrite Nat.add_succ_r. reflexivity.
Qed.

(** The greedy run of white space, when what follows it matches. *)
Lemma star_greedy_space (fuel : nat) (s : mstate) (k : cont) (x : mstate) :
  length (rest s) < fuel ->
  k (MState (pos s + (length (rest s) - length (lstrip (rest s))))
            (lstrip (rest s)) (caps s)) = Some x ->
  star true (run cls_s) fuel s k = Some x.
Proof.
  set (step := run cls_s).
  assert (Hstep : forall s' k',
            step s' k' = match rest s' with
                         | c :: t => if isspace c then k' (MState (S (pos s')) t (caps s'))
                                     else None
                         | [] => None
                         end) by reflexivity.
  clearbody step.
  revert s. induction fuel as [| f IH]; intros s Hfuel Hk; [lia |].
  cbn [star]. rewrite Hstep.
  destruct (rest s) as [| c t] eqn:Hrest.
  - cbn in Hk. rewrite Nat.add_0_r, <- Hrest, mstate_eta in Hk. exact Hk.
  - cbn [lstrip] in Hk. destruct (isspace c).
    + cbn [pos]. rewrite (proj2 (Nat.ltb_lt _ _) (Nat.lt_succ_diag_r (pos s))).
      rewrite (IH (MState (S (pos s)) t (caps s)) ltac:(cbn in *; lia)); [reflexivity |].
      cbn [pos rest caps]. pose proof (lstrip_length t) as Hle.
      replace (S (pos s) + (length t - length (lstrip t)))
        with (pos s + (length (c :: t) - length (lstrip t)))
        by (cbn [length]; lia).
      exact Hk.
    + rewrite Nat.sub_diag, Nat.add_0_r, <- Hrest, mstate_eta in Hk. exact Hk.
Qed.

(** The lazy run up to the end of the line, inside group 1, followed by the
    newline or the end of the text. *)
Lemma star_lazy_line (fuel : nat) (s : mstate) (p0 : nat) :
  length (rest s) < fuel ->
  star false (run dot) fuel s
    (fun s1 => run (RAlt (chr nl) REnd)
                 (MState (pos s1) (rest s1) ((1, (p0, pos s1)) :: caps s1)) Some) =
  let line := line_of (rest s) in
  let b := pos s + length line in
  Some (MState (if length line <? length (rest s) then S b else b)
               (skipn (S (length line)) (rest s))
               ((1, (p0, b)) :: caps s)).
Proof.
  set (step := run dot).
  assert (Hstep : forall s' k',
            step s' k' = match rest s' with
                         | c :: t => if negb (Ascii.eqb c nl)
                                     then k' (MState (S (pos s')) t (caps s'))
                                     else None
                         | [] => None
                         end) by reflexivity.
  clearbody step.
  set (k := fun s1 : mstate => run (RAlt (chr nl) REnd)
              (MState (pos s1) (rest s1) ((1, (p0, pos s1)) :: caps s1)) Some).
  assert (Hk : forall s1,
            k s1 = let cs := (1, (p0, pos s1)) :: caps s1 in
                   match rest s1 with
                   | [] => Some (MState (pos s1) [] cs)
                   | c :: t => if Ascii.eqb c nl then Some (MState (S (pos s1)) t cs)
                               else None
                   end).
  { intros [i r cs]. unfold k. cbn [run chr pos rest caps]. cbv zeta.
    destruct r as [| c t]; [reflexivity |].
    destruct (Ascii.eqb_spec c nl) as [-> | Hne].
    - rewrite Ascii.eqb_refl. reflexivity.
    - rewrite (proj2 (Ascii.eqb_neq nl c)) by congruence.
      cbn [at_end]. destruct t; [| reflexivity].
      rewrite (proj2 (Ascii.eqb_neq c nl) Hne). reflexivity. }
  clearbody k.
  revert s. induction fuel as [| f IH]; intros s Hfuel; [lia |].
  cbn [star]. cbv zeta. rewrite Hk, Hstep. cbv zeta.
  destruct s as [i r cs]. cbn [pos rest caps] in *.
  destruct r as [| c t].
  - cbn. rewrite Nat.add_0_r. reflexivity.
  - cbn [line_of]. destruct (Ascii.eqb c nl).
    + cbn. rewrite Nat.add_0_r. reflexivity.
    + cbn [negb]. rewrite (proj2 (Nat.ltb_lt _ _) (Nat.lt_succ_diag_r i)).
      rewrite (IH (MState (S i) t cs) ltac:(cbn in *; lia)).
      cbv zeta. cbn [pos rest caps length skipn].
      rewrite Nat.add_succ_r.
      replace (S (length (line_of t)) <? S (length t))
        with (length (line_of t) <? length t) by reflexivity.
      reflexivity.
Qed.

Lemma run_seq (r1 r2 : regex) (s : mstate) (k : cont) :
  run (RSeq r1 r2) s k = run r1 s (fun s1 => run r2 s1 k).
Proof. reflexivity. Qed.

Lemma run_star (g : bool) (r : regex) (s : mstate) (k : cont) :
  run (RStar g r) s k = star g (run r) (S (length (rest s))) s k.
Proof. reflexivity. Qed.

Lemma run_group (n : nat) (r : regex) (s : mstate) (k : cont) :
  run (RGroup n r) s k =
    run r s (fun s1 => k (MState (pos s1) (rest s1) ((n, (pos s, pos s1)) :: caps s1))).
Proof. reflexivity. Qed.

(** A header pattern tried at one position. *)
Lemma match_at_header (name : string) (i : nat) (s : pystr) :
  match_at (header_re name) i s =
    match after_prefix_i (lit name) s with
    | None => None
    | Some r =>
      let j := i + length (lit name) in
      let v := lstrip r in
      let a := j + (length r - length v) in
      let b := a + length (line_of v) in
      Some (RMatch i (if length (line_of v) <? length v then S b else b) [(1, (a, b))])
    end.
Proof.
  unfold match_at, header_re. rewrite run_seq, run_word_i. cbn [pos rest caps].
  destruct (after_prefix_i (lit name) s) as [r |]; [| reflexivity].
  rewrite run_seq, run_star. cbn [rest].
  erewrite star_greedy_space; [| cbn [rest]; lia |].
  2: { cbn [pos rest caps]. rewrite run_seq, run_group, run_star.
       cbn [pos rest caps].
       apply (star_lazy_line (S (length (lstrip r)))
                (MState (i + length (lit name) + (length r - length (lstrip r)))
                        (lstrip r) [])).
       cbn [rest]. lia. }
  cbv zeta. cbn [pos rest caps]. reflexivity.
Qed.

(** The search for a header pattern. *)
Lemma search_from_header (name : string) (i : nat) (s : pystr) :
  search_from (header_re name) i s =
    match first_header (lit name) i s with
    | None => None
    | Some (j, r) =>
      let v := lstrip r in
      let a := j + (length r - length v) in
      let b := a + length (line_of v) in
      Some (RMatch (j - length (lit name))
              (if length (line_of v) <? length v then S b else b) [(1, (a, b))])
    end.
Proof.
  revert i. induction s as [| c s IH]; intros i.
  - cbn [search_from first_header]. rewrite match_at_header.
    destruct (after_prefix_i (lit name) []) as [r |]; [| reflexivity].
    cbv zeta. rewrite Nat.add_sub. reflexivity.
  - cbn [search_from first_header]. rewrite match_at_header.
    destruct (after_prefix_i (lit name) (c :: s)) as [r |]; [| apply IH].
    cbv zeta. rewrite Nat.add_sub. reflexivity.
Qed.

Lemma after_prefix_i_skipn (name s r : pystr) :
  after_prefix_i name s = Some r -> r = skipn (length name) s.
Proof.
  revert s. induction name as [| c name IH]; intros s H.
  - cbn in H. injection H as <-. reflexivity.
  - destruct s as [| x s]; [discriminate |]. cbn [after_prefix_i] in H.
    destruct (Ascii.eqb (lower_char x) (lower_char c)); [| discriminate].
    exact (IH s H).
Qed.

Lemma first_header_skipn (name : pystr) (i j : nat) (s r : pystr) :
  first_header name i s = Some (j, r) ->
  i + length name <= j /\ r = skipn (j - i) s.
Proof.
  revert i. induction s as [| c s IH]; intros i H; cbn [first_header] in H.
  - destruct (after_prefix_i name []) as [r' |] eqn:Hp; [| discriminate].
    injection H as <- <-. split; [lia |].
    rewrite Nat.add_comm, Nat.add_sub. exact (after_prefix_i_skipn _ _ _ Hp).
  - destruct (after_prefix_i name (c :: s)) as [r' |] eqn:Hp.
    + injection H as <- <-. split; [lia |].
      rewrite Nat.add_comm, Nat.add_sub. exact (after_prefix_i_skipn _ _ _ Hp).
    + destruct (IH (S i) H) as [Hle ->]. split; [lia |].
      replace (j - i) with (S (j - S i)) by lia. reflexivity.
Qed.

(** What [re.search] finds for a header pattern, said directly. *)
Lemma search_header (name : string) (text : pystr) :
  match search (header_re name) text with
  | Some m =>
    header_field name text = Some (strip (group text m 1), m_end m) /\
    length (lit name) <= m_end m
  | None => header_field name text = None
  end.
Proof.
  unfold search, header_field. rewrite search_from_header.
  destruct (first_header (lit name) 0 text) as [[j r] |] eqn:Hfirst; [| reflexivity].
  destruct (first_header_skipn _ _ _ _ _ Hfirst) as [Hle Hr].
  rewrite Nat.sub_0_r in Hr. cbv zeta.
  unfold group. cbn [m_caps m_end span_of Nat.eqb]. unfold slice.
  replace (j + (length r - length (lstrip r)) + length (line_of (lstrip r))
           - (j + (length r - length (lstrip r))))
    with (length (line_of (lstrip r))) by lia.
  rewrite (Nat.add_comm j), <- skipn_skipn, <- Hr, lstrip_skipn, line_of_firstn.
  split; [reflexivity |].
  cbn [Nat.add] in Hle.
  destruct (length (line_of (lstrip r)) <? length (lstrip r)); lia.
Qed.

(** C7. The extractor finds each header at the first occurrence of its
    name anywhere in the text, letters compared without case, not only at
    the start of a line. After the name it skips white space, line ends
    included, and the value is what follows up to the next line end,
    trimmed, so that after a name that ends its line the value is read from
    the next line; the value is "unknown" when the name does not occur. When
    a header is found the body is what follows the later of the two
    matches, trimmed; when none is found the body is the input as it is,
    untrimmed. The example of the specification gives a@b.com, Hi and Body
    text. *)
Theorem extract_email_parts_direct (raw_text : pystr) :
  _extract_email_parts raw_text = extract_direct raw_text /\
  (header_field "From:" raw_text = None ->
   header_field "Subject:" raw_text = None ->
   _extract_email_parts raw_text = (lit "unknown", lit "unknown", raw_text)) /\
  _extract_email_parts
    (lit "From: a@b.com" ++ nl :: lit "Subject: Hi" ++ nl :: lit "Body text") =
    (lit "a@b.com", lit "Hi", lit "Body text") /\
  _extract_email_parts (lit "From:" ++ nl :: lit "Subject: Hi" ++ nl :: lit "body") =
    (lit "Subject: Hi", lit "Hi", lit "body").
Proof.
  assert (Heq : _extract_email_parts raw_text = extract_direct raw_text).
  { unfold _extract_email_parts, extract_direct. cbv zeta.
    pose proof (search_header "From:" raw_text) as Hfrom.
    pose proof (search_header "Subject:" raw_text) as Hsubj.
    destruct (search (header_re "From:") raw_text) as [mf |];
      destruct (search (header_re "Subject:") raw_text) as [ms |].
    - destruct Hfrom as [-> Hf], Hsubj as [-> Hs]. cbn [Nat.max].
      change (length (lit "From:")) with 5 in Hf.
      replace (0 <? Nat.max (m_end mf) (m_end ms)) with true
        by (symmetry; apply Nat.ltb_lt; lia).
      reflexivity.
    - destruct Hfrom as [-> Hf]. rewrite Hsubj. cbn [Nat.max].
      change (length (lit "From:")) with 5 in Hf.
      replace (0 <? m_end mf) with true by (symmetry; apply Nat.ltb_lt; lia).
      rewrite Nat.max_0_r. reflexivity.
    - destruct Hsubj as [-> Hs]. rewrite Hfrom. cbn [Nat.max].
      change (length (lit "Subject:")) with 8 in Hs.
      replace (0 <? m_end ms) with true by (symmetry; apply Nat.ltb_lt; lia).
      reflexivity.
    - rewrite Hfrom, Hsubj. reflexivity. }
  split_and!.
  - exact Heq.
  - intros Hf Hs. rewrite Heq. unfold extract_direct. rewrite Hf, Hs. reflexivity.
  - vm_compute. reflexivity.
  - vm_compute. reflexivity.
Qed.

(** The name of a header is found in the middle of a line, and a text
    without headers is its own body, white space included. *)
Lemma extract_unanchored_untrimmed :
  _extract_email_parts (lit "Reply to the list, not from: me") =
    (lit "me", lit "unknown", []) /\
  _extract_email_parts (lit "  hello  ") = (lit "unknown", lit "unknown", lit "  hello  ") /\
  strip (lit "  hello  ") <> lit "  hello  ".
Proof.
  split_and!; [vm_compute; reflexivity | vm_compute; reflexivity |].
  vm_compute. discriminate.
Qed.

(** ** Recovery of the structured answer *)

(** The greedy run of any characters, followed by the closing brace that
    ends group 1 opened at position [i]. *)
Lemma star_greedy_last (fuel i : nat) (s : mstate) :
  length (rest s) < fuel ->
  star true (run cls_any) fuel s
    (fun s2 => run (chr "}") s2
       (fun s1 => Some (MState (pos s1) (rest s1) ((1, (i, pos s1)) :: caps s1)))) =
  match last_close (rest s) with
  | Some n =>
    Some (MState (pos s + S n) (skipn (S n) (rest s)) ((1, (i, pos s + S n)) :: caps s))
  | None => None
  end.
Proof.
  set (step := run cls_any).
  assert (Hstep : forall s' k',
            step s' k' = match rest s' with
                         | c :: t => k' (MState (S (pos s')) t (caps s'))
                         | [] => None
                         end).
  { intros s' k'. unfold step. cbn [run cls_any].
    destruct (rest s') as [| c t]; [reflexivity |].
    rewrite orb_negb_r. reflexivity. }
  clearbody step.
  set (k := fun s2 : mstate => run (chr "}") s2
              (fun s1 => Some (MState (pos s1) (rest s1) ((1, (i, pos s1)) :: caps s1)))).
  assert (Hk : forall s2,
            k s2 = match rest s2 with
                   | c :: t =>
                     if Ascii.eqb "}" c
                     then Some (MState (S (pos s2)) t ((1, (i, S (pos s2))) :: caps s2))
                     else None
                   | [] => None
                   end) by reflexivity.
  clearbody k.
  revert s. induction fuel as [| f IH]; intros s Hfuel; [lia |].
  cbn [star]. rewrite Hstep, Hk.
  destruct s as [p r cs]. cbn [pos rest caps] in *.
  destruct r as [| c t]; [reflexivity |].
  rewrite (proj2 (Nat.ltb_lt _ _) (Nat.lt_succ_diag_r p)).
  rewrite (IH (MState (S p) t cs) ltac:(cbn in *; lia)).
  cbn [pos rest caps last_close].
  destruct (last_close t) as [n |].
  - cbn [skipn]. replace (p + S (S n)) with (S p + S n) by lia. reflexivity.
  - destruct (Ascii.eqb "}" c); [| reflexivity].
    cbn [skipn]. rewrite Nat.add_1_r. reflexivity.
Qed.

Lemma run_chr (c : ascii) (s : mstate) (k : cont) :
  run (chr c) s k =
    match rest s with
    | x :: t => if Ascii.eqb c x then k (MState (S (pos s)) t (caps s)) else None
    | [] => None
    end.
Proof. reflexivity. Qed.

(** The brace pattern tried at one position. *)
Lemma match_at_brace (i : nat) (s : pystr) :
  match_at brace_re i s =
    match s with
    | c :: t =>
      if Ascii.eqb "{" c then
        match last_close t with
        | Some n => Some (RMatch i (S i + S n) [(1, (i, S i + S n))])
        | None => None
        end
      else None
    | [] => None
    end.
Proof.
  unfold match_at, brace_re. rewrite run_group, run_seq.
  rewrite run_chr. cbn [pos rest caps].
  destruct s as [| c t]; [reflexivity |].
  destruct (Ascii.eqb "{" c); [| reflexivity].
  rewrite run_seq, run_star. cbn [pos rest caps].
  rewrite (star_greedy_last (S (length t)) i (MState (S i) t []) ltac:(cbn; lia)).
  cbn [pos rest caps]. destruct (last_close t); reflexivity.
Qed.

Lemma skipn_cons_tail (i : nat) (text : pystr) (c : ascii) (t : pystr) :
  skipn i text = c :: t -> skipn (S i) text = t.
Proof.
  revert text. induction i as [| i IH]; intros text H.
  - change (text = c :: t) in H. rewrite H. reflexivity.
  - destruct text as [| x text]; [discriminate |]. exact (IH text H).
Qed.

Lemma search_from_brace_none (s : pystr) (i : nat) :
  last_close s = None -> search_from brace_re i s = None.
Proof.
  revert i. induction s as [| c t IH]; intros i H.
  - reflexivity.
  - cbn [search_from]. rewrite match_at_brace.
    cbn [last_close] in H.
    destruct (last_close t) as [n |]; [discriminate |].
    destruct (Ascii.eqb "{" c); apply IH; reflexivity.
Qed.

(** What [re.search] finds for the brace pattern, said directly. *)
Lemma search_from_brace (text : pystr) (i : nat) (s : pystr) :
  skipn i text = s ->
  match search_from brace_re i s with
  | Some m => brace_span s = Some (group text m 1)
  | None => brace_span s = None
  end.
Proof.
  revert i. induction s as [| c t IH]; intros i Hs.
  - reflexivity.
  - cbn [search_from brace_span]. rewrite match_at_brace.
    destruct (Ascii.eqb "{" c).
    + destruct (last_close t) as [n |] eqn:Hlast.
      * unfold group. cbn [m_caps span_of Nat.eqb]. unfold slice.
        replace (S i + S n - i) with (S (S n)) by lia.
        rewrite Hs. reflexivity.
      * rewrite (search_from_brace_none t (S i) Hlast). reflexivity.
    + exact (IH (S i) (skipn_cons_tail i text c t Hs)).
Qed.

Lemma search_brace (text : pystr) :
  match search brace_re text with
  | Some m => brace_span text = Some (group text m 1)
  | None => brace_span text = None
  end.
Proof. exact (search_from_brace text 0 text eq_refl). Qed.

(** The greedy run of word characters in group 1 opened at [i], followed
    by a colon. *)
Lemma star_greedy_word (fuel i : nat) (s : mstate) :
  length (rest s) < fuel ->
  star true (run cls_w) fuel s
    (fun s1 => run (chr ":") (MState (pos s1) (rest s1) ((1, (i, pos s1)) :: caps s1)) Some) =
  let n := length (word_run (rest s)) in
  match skipn n (rest s) with
  | x :: t =>
    if Ascii.eqb ":" x
    then Some (MState (S (pos s + n)) t ((1, (i, pos s + n)) :: caps s))
    else None
  | [] => None
  end.
Proof.
  set (step := run cls_w).
  assert (Hstep : forall s' k',
            step s' k' = match rest s' with
                         | c :: t => if isword c then k' (MState (S (pos s')) t (caps s'))
                                     else None
                         | [] => None
                         end) by reflexivity.
  clearbody step.
  set (k := fun s1 : mstate =>
              run (chr ":") (MState (pos s1) (rest s1) ((1, (i, pos s1)) :: caps s1)) Some).
  assert (Hk : forall s1,
            k s1 = match rest s1 with
                   | x :: t =>
                     if Ascii.eqb ":" x
                     then Some (MState (S (pos s1)) t ((1, (i, pos s1)) :: caps s1))
                     else None
                   | [] => None
                   end) by reflexivity.
  clearbody k.
  revert s. induction fuel as [| f IH]; intros s Hfuel; [lia |].
  cbn [star]. rewrite Hstep, Hk. cbv zeta.
  destruct s as [p r cs]. cbn [pos rest caps] in *.
  destruct r as [| c t]; [reflexivity |].
  cbn [word_run]. destruct (isword c) eqn:Hc.
  - rewrite (proj2 (Nat.ltb_lt _ _) (Nat.lt_succ_diag_r p)).
    rewrite (IH (MState (S p) t cs) ltac:(cbn in *; lia)).
    cbv zeta. cbn [pos rest caps length skipn].
    replace (S p + length (word_run t)) with (p + S (length (word_run t))) by lia.
    assert (Hcolon : Ascii.eqb ":" c = false).
    { destruct (Ascii.eqb_spec ":" c) as [<- | _]; [discriminate Hc | reflexivity]. }
    rewrite Hcolon.
    destruct (skipn (length (word_run t)) t) as [| x t']; [reflexivity |].
    destruct (Ascii.eqb ":" x); reflexivity.
  - cbn [length skipn]. rewrite Nat.add_0_r. reflexivity.
Qed.

Lemma run_char (p : ascii -> bool) (s : mstate) (k : cont) :
  run (RChar p) s k =
    match rest s with
    | x :: t => if p x then k (MState (S (pos s)) t (caps s)) else None
    | [] => None
    end.
Proof. reflexivity. Qed.

(** The key pattern tried at one position. *)
Lemma match_at_key (i : nat) (s : pystr) :
  match_at key_re i s =
    let n := length (word_run s) in
    match n, skipn n s with
    | S _, x :: _ =>
      if Ascii.eqb ":" x then Some (RMatch i (S (i + n)) [(1, (i, i + n))]) else None
    | _, _ => None
    end.
Proof.
  unfold match_at, key_re, plus. rewrite run_seq, run_group, run_seq.
  unfold cls_w at 1. rewrite run_char. cbn [pos rest caps]. cbv zeta.
  destruct s as [| c t]; [reflexivity |].
  cbn [word_run]. destruct (isword c); [| reflexivity].
  rewrite run_star. cbn [pos rest caps length skipn].
  rewrite (star_greedy_word (S (length t)) i (MState (S i) t []) ltac:(cbn; lia)).
  cbv zeta. cbn [pos rest caps].
  replace (S i + length (word_run t)) with (i + S (length (word_run t))) by lia.
  destruct (skipn (length (word_run t)) t) as [| x t']; [reflexivity |].
  destruct (Ascii.eqb ":" x); reflexivity.
Qed.

Lemma word_run_firstn (s : pystr) : firstn (length (word_run s)) s = word_run s.
Proof.
  induction s as [| c s IH]; [reflexivity |].
  cbn [word_run]. destruct (isword c); [| reflexivity].
  cbn [length firstn]. rewrite IH. reflexivity.
Qed.

Lemma word_run_length (s : pystr) : length (word_run s) <= length s.
Proof.
  induction s as [| c s IH]; cbn [word_run]; [lia |].
  destruct (isword c); cbn [length]; lia.
Qed.

(** A run under way is carried to its end. *)
Lemma quote_keys_from_run (pending s : pystr) :
  quote_keys_from pending s =
    quote_keys_from (rev (word_run s) ++ pending) (skipn (length (word_run s)) s).
Proof.
  revert pending. induction s as [| c s IH]; intros pending; [reflexivity |].
  cbn [word_run]. destruct (isword c) eqn:Hc.
  - cbn [length skipn rev quote_keys_from]. rewrite Hc, IH, <- app_assoc. reflexivity.
  - reflexivity.
Qed.

Lemma word_run_stops (s : pystr) (x : ascii) (r : pystr) :
  skipn (length (word_run s)) s = x :: r -> isword x = false.
Proof.
  induction s as [| c s IH]; [discriminate |].
  cbn [word_run]. destruct (isword c) eqn:Hc.
  - exact IH.
  - intros H. injection H as <- _. exact Hc.
Qed.

Lemma pystr_eqb_nil (s : pystr) : PyStr.eqb s [] = true -> s = [].
Proof. destruct s; [reflexivity | discriminate]. Qed.

(** A run that no colon follows is copied. *)
Lemma quote_keys_from_copy (pending s : pystr) :
  match skipn (length (word_run s)) s with
  | x :: _ => Ascii.eqb ":" x = false
  | [] => True
  end ->
  quote_keys_from pending s = rev pending ++ quote_keys_from [] s.
Proof.
  intros H.
  rewrite (quote_keys_from_run pending s), (quote_keys_from_run [] s).
  destruct (skipn (length (word_run s)) s) as [| x r] eqn:Hafter.
  - cbn [quote_keys_from]. rewrite app_nil_r, rev_app_distr. reflexivity.
  - cbn [quote_keys_from]. rewrite (word_run_stops s x r Hafter), H. cbn [andb].
    rewrite app_nil_r, rev_app_distr, <- app_assoc. reflexivity.
Qed.

(** [re.sub] of the key pattern, said directly. *)
Lemma sub_from_key (text : pystr) (n : nat) :
  forall (s : pystr) (i fuel : nat),
    length s <= n -> length s < fuel -> skipn i text = s ->
    sub_from key_re (quote_key text) fuel i s = quote_keys_from [] s.
Proof.
  induction n as [| n IH]; intros s i fuel Hn Hfuel Hs.
  - destruct s; [| cbn in Hn; lia]. destruct fuel; [lia |]. reflexivity.
  - destruct fuel as [| f]; [lia |].
    cbn [sub_from]. rewrite match_at_key. cbv zeta.
    destruct s as [| c t]; [reflexivity |].
    cbn [length] in Hn, Hfuel.
    pose proof (skipn_cons_tail i text c t Hs) as Ht.
    cbn [word_run]. destruct (isword c) eqn:Hc.
    + cbn [length skipn].
      destruct (skipn (length (word_run t)) t) as [| x r] eqn:Hafter.
      * rewrite (IH t (S i) f ltac:(lia) ltac:(lia) Ht).
        cbn [quote_keys_from]. rewrite Hc.
        rewrite (quote_keys_from_copy [c] t) by (rewrite Hafter; exact I).
        reflexivity.
      * destruct (Ascii.eqb ":" x) eqn:Hx.
        -- cbn [m_end].
           replace (i <? S (i + S (length (word_run t)))) with true
             by (symmetry; apply Nat.ltb_lt; lia).
           replace (S (i + S (length (word_run t))) - i)
             with (S (S (length (word_run t)))) by lia.
           cbn [skipn].
           pose proof (skipn_cons_tail _ _ _ _ Hafter) as Hr.
           rewrite Hr.
           assert (Hlen : length r < length t).
           { apply (f_equal (@length ascii)) in Hafter.
             rewrite length_skipn in Hafter. cbn [length] in Hafter. lia. }
           rewrite (IH r (S (i + S (length (word_run t)))) f ltac:(lia) ltac:(lia)).
           2: { rewrite <- Hr, <- Ht, skipn_skipn. f_equal. lia. }
           unfold quote_key, group. cbn [m_caps span_of Nat.eqb]. unfold slice.
           replace (i + S (length (word_run t)) - i) with (S (length (word_run t))) by lia.
           rewrite Hs. cbn [firstn]. rewrite word_run_firstn.
           rewrite (quote_keys_from_run [] (c :: t)).
           cbn [word_run]. rewrite Hc. cbn [length skipn]. rewrite Hafter.
           cbn [quote_keys_from]. rewrite (word_run_stops t x r Hafter), Hx.
           replace (PyStr.eqb (rev (c :: word_run t) ++ []) []) with false.
           2: { symmetry. destruct (PyStr.eqb (rev (c :: word_run t) ++ []) []) eqn:He;
                  [| reflexivity].
                apply pystr_eqb_nil in He. rewrite app_nil_r in He.
                apply (f_equal (@rev ascii)) in He. rewrite rev_involutive in He.
                discriminate He. }
           cbn [andb negb]. rewrite app_nil_r, rev_involutive.
           apply Ascii.eqb_eq in Hx. subst x.
           cbn [app]. rewrite <- app_assoc. reflexivity.
        -- rewrite (IH t (S i) f ltac:(lia) ltac:(lia) Ht).
           cbn [quote_keys_from]. rewrite Hc.
           rewrite (quote_keys_from_copy [c] t) by (rewrite Hafter; exact Hx).
           reflexivity.
    + cbn [length skipn].
      rewrite (IH t (S i) f ltac:(lia) ltac:(lia) Ht).
      cbn [quote_keys_from]. rewrite Hc, andb_false_r. reflexivity.
Qed.

Lemma sub_key (text : pystr) : sub key_re quote_key text = quote_keys text.
Proof.
  unfold sub, quote_keys.
  exact (sub_from_key text (length text) text 0 (S (length text))
           (Nat.le_refl _) (Nat.lt_succ_diag_r _) eq_refl).
Qed.

(** C6. The recoverer returns the empty object for the empty text. For any
    other text it returns the first of these that [json.loads] accepts: the
    whole text; the text from the first opening brace to the last closing
    brace after it; that text with every run of word characters that a colon
    follows put between double quotes and every single quote made a double
    quote. When none is accepted, or no such braces exist, it returns the
    default analysis (likelihood 0.5, confidence 0.3, one parser-error
    insight, a format-error reasoning, a manual-review recommendation). It
    raises nothing. The example of the specification, with bare keys and
    single quotes, is recovered. *)
Theorem extract_json_direct (depth : nat) (text : pystr) :
  _extract_json depth text = recover_direct depth text /\
  _extract_json ample_depth bare_response =
    JObj [ (wlit "phishing_likelihood", JFloat 0.8);
           (wlit "confidence", JFloat 0.9);
           (wlit "insights", JArr [JStr (wlit "x")]);
           (wlit "reasoning", JStr (wlit "y"));
           (wlit "recommended_action", JStr (wlit "z")) ].
Proof.
  split.
  - unfold _extract_json, recover_direct.
    destruct text as [| c t]; [reflexivity |].
    destruct (json_loads depth (c :: t)) as [v |]; [reflexivity |].
    pose proof (search_brace (c :: t)) as Hspan.
    destruct (search brace_re (c :: t)) as [m |]; rewrite Hspan; [| reflexivity].
    rewrite sub_key. reflexivity.
  - vm_compute. reflexivity.
Qed.

(** The empty text gives the empty object, not the default analysis; and of
    two objects in one answer the first is not tried, though it parses. *)
Lemma extract_json_empty_and_span :
  _extract_json ample_depth [] = JObj [] /\
  JObj [] <> default_analysis /\
  _extract_json ample_depth two_objects_response = default_analysis /\
  json_loads ample_depth (lit "{" ++ quoted "confidence" ++ lit ": 1}") =
    Some (JObj [(wlit "confidence", JInt 1)]).
Proof.
  split_and!; [reflexivity | discriminate | vm_compute; reflexivity
              | vm_compute; reflexivity].
Qed.


(** ** The payload of the exhausted client *)

(** One encoded character is decoded to itself. *)
Lemma scanstring_encode_char (c : ascii) (x : pystr) (r : wstr) (after : pystr) :
  scanstring x = Some (r, after) ->
  scanstring (encode_char c ++ x) = Some (cp c :: r, after).
Proof.
  intros H.
  destruct c as [b0 b1 b2 b3 b4 b5 b6 b7].
  destruct b0, b1, b2, b3, b4, b5, b6, b7;
    match goal with
    | |- scanstring (encode_char ?c ++ _) = _ =>
      let e := eval vm_compute in (encode_char c) in
      change (encode_char c) with e
    end;
    cbn; rewrite H; reflexivity.
Qed.

(** [json.loads] undoes [json.dumps] on a string. *)
Lemma scanstring_encode (s after : pystr) :
  scanstring (flat_map encode_char s ++ dq :: after) = Some (wide s, after).
Proof.
  induction s as [| c s IH].
  - cbn. reflexivity.
  - cbn [flat_map]. rewrite <- app_assoc.
    exact (scanstring_encode_char c _ (wide s) after IH).
Qed.

Section Members.

Variable scan : pystr -> option (json * pystr).

(** One member that a comma follows, and the last member. *)
Lemma object_members_next (n : nat) (acc : list (wstr * json))
    (s t : pystr) (key : wstr) (s1 s2 s3 s4 s5 : pystr) (v : json)
    (r : option (json * pystr)) :
  s = dq :: t ->
  scanstring t = Some (key, s1) ->
  skip_ws s1 = ":"%char :: s2 ->
  scan (skip_ws s2) = Some (v, s3) ->
  skip_ws s3 = ","%char :: s4 ->
  skip_ws s4 = s5 ->
  object_members scan n (dict_set key v acc) s5 = r ->
  object_members scan (S n) acc s = r.
Proof.
  intros -> H1 H2 H3 H4 <- <-. cbn [object_members].
  change (Ascii.eqb dq dq) with true. cbv iota.
  rewrite H1, H2. change (ch_is ":" ":") with true. cbv iota.
  rewrite H3. cbv zeta. rewrite H4. reflexivity.
Qed.

Lemma object_members_last (n : nat) (acc : list (wstr * json))
    (s t : pystr) (key : wstr) (s1 s2 s3 s4 : pystr) (v : json)
    (r : option (json * pystr)) :
  s = dq :: t ->
  scanstring t = Some (key, s1) ->
  skip_ws s1 = ":"%char :: s2 ->
  scan (skip_ws s2) = Some (v, s3) ->
  skip_ws s3 = "}"%char :: s4 ->
  Some (JObj (dict_set key v acc), s4) = r ->
  object_members scan (S n) acc s = r.
Proof.
  intros -> H1 H2 H3 H4 <-. cbn [object_members].
  change (Ascii.eqb dq dq) with true. cbv iota.
  rewrite H1, H2. change (ch_is ":" ":") with true. cbv iota.
  rewrite H3. cbv zeta. rewrite H4. reflexivity.
Qed.

End Members.

Lemma scan_once_string (depth : nat) (t : pystr) (r : wstr) (after : pystr) :
  scanstring t = Some (r, after) ->
  scan_once depth (dq :: t) = Some (JStr r, after).
Proof.
  intros H. destruct depth; cbn [scan_once]; change (Ascii.eqb dq dq) with true;
    cbv iota; rewrite H; reflexivity.
Qed.

(** The first three members of the payload, whatever follows them. *)
Lemma payload_first_members (f n : nat) (x : pystr) (r : option (json * pystr)) :
  object_members (scan_once (S f)) n
    [ (wlit "phishing_likelihood", JFloat 0.5);
      (wlit "confidence", JFloat 0.4);
      (wlit "insights", JArr [JStr (wlit "API error: Unable to analyze email")]) ]
    (skip_ws x) = r ->
  object_members (scan_once (S f)) (S (S (S n))) []
    (quoted "phishing_likelihood" ++ lit ": 0.5, "
     ++ quoted "confidence" ++ lit ": 0.4, "
     ++ quoted "insights" ++ lit ": [" ++ quoted "API error: Unable to analyze email"
     ++ lit "], " ++ x) = r.
Proof.
  intros H. destruct f.
  all: eapply object_members_next;
    [reflexivity | cbv; reflexivity | reflexivity | cbv; reflexivity | reflexivity
    | reflexivity |].
  all: eapply object_members_next;
    [reflexivity | cbv; reflexivity | reflexivity | cbv; reflexivity | reflexivity
    | reflexivity |].
  all: eapply object_members_next;
    [reflexivity | cbv; reflexivity | reflexivity | cbv; reflexivity | reflexivity
    | reflexivity |].
  all: exact H.
Qed.

Lemma scan_once_object (f : nat) (t t' : pystr) :
  skip_ws t = dq :: t' ->
  scan_once (S f) ("{"%char :: t) =
    object_members (scan_once f) (S (length t)) [] (dq :: t').
Proof.
  intros H. cbn [scan_once].
  change (Ascii.eqb "{" dq) with false. change (ch_is "{" "{") with true. cbv iota.
  rewrite H. change (ch_is dq "}") with false. cbv iota. reflexivity.
Qed.

(** The payload is decoded to the dictionary it was made from. *)
Lemma scan_exhausted_payload (f : nat) (error_msg : pystr) :
  scan_once (S (S f)) (exhausted_payload error_msg) = Some (sentinel error_msg, []).
Proof.
  unfold exhausted_payload, encode_basestring.
  pose proof (scanstring_encode (lit "Error: " ++ error_msg)
                (lit ", " ++ quoted "recommended_action" ++ lit ": "
                 ++ quoted "Please examine the email carefully" ++ lit "}")) as Hmsg.
  replace ((dq :: flat_map encode_char (lit "Error: " ++ error_msg) ++ [dq])
           ++ lit ", " ++ quoted "recommended_action" ++ lit ": "
           ++ quoted "Please examine the email carefully" ++ lit "}")
    with (dq :: (flat_map encode_char (lit "Error: " ++ error_msg) ++ dq :: lit ", "
           ++ quoted "recommended_action" ++ lit ": "
           ++ quoted "Please examine the email carefully" ++ lit "}"))
    by (cbn [app]; rewrite <- app_assoc; reflexivity).
  set (y := flat_map encode_char (lit "Error: " ++ error_msg) ++ dq :: lit ", "
           ++ quoted "recommended_action" ++ lit ": "
           ++ quoted "Please examine the email carefully" ++ lit "}") in *.
  clearbody y.
  change (lit "{") with ["{"%char]. cbn [app].
  erewrite scan_once_object by reflexivity.
  match goal with
  | |- object_members _ (S (length ?t)) _ _ = _ =>
    assert (Hlen : 4 <= length t) by (rewrite length_app; cbv [quoted lit list_ascii_of_string length app]; lia);
    destruct (length t) as [| [| [| [| n]]]]; try lia; clear Hlen
  end.
  apply (payload_first_members f (S (S n))
           (quoted "reasoning" ++ lit ": " ++ dq :: y)).
  eapply object_members_next;
    [reflexivity | cbv; reflexivity | reflexivity
    | exact (scan_once_string _ _ _ _ Hmsg) | reflexivity | reflexivity |].
  eapply object_members_last;
    [reflexivity | cbv; reflexivity | reflexivity | cbv; reflexivity | reflexivity |].
  reflexivity.
Qed.

Lemma loads_exhausted_payload (depth : nat) (error_msg : pystr) :
  2 <= depth ->
  json_loads depth (exhausted_payload error_msg) = Some (sentinel error_msg).
Proof.
  intros Hdepth. unfold json_loads.
  change (skip_ws (exhausted_payload error_msg)) with (exhausted_payload error_msg).
  destruct depth as [| [| f]]; try lia.
  rewrite scan_exhausted_payload. reflexivity.
Qed.

Lemma extract_json_exhausted (depth : nat) (error_msg : pystr) :
  2 <= depth ->
  _extract_json depth (exhausted_payload error_msg) = sentinel error_msg.
Proof.
  intros Hdepth.
  pose proof (loads_exhausted_payload depth error_msg Hdepth) as H.
  unfold _extract_json.
  destruct (exhausted_payload error_msg) eqn:Hp; [discriminate Hp |].
  rewrite H. reflexivity.
Qed.

(** X1. The payload that [json.dumps] builds when the attempts are used up
    is decoded by [json.loads] to the dictionary it was built from, whatever
    characters the error message holds, and so the recoverer returns that
    dictionary at its first step; the decoder needs room for the two
    containers of the payload, one inside the other. *)
Theorem exhausted_payload_round_trip (depth : nat) (error_msg : pystr) :
  2 <= depth ->
  json_loads depth (exhausted_payload error_msg) = Some (sentinel error_msg) /\
  _extract_json depth (exhausted_payload error_msg) = sentinel error_msg.
Proof.
  intros Hdepth.
  split; [apply loads_exhausted_payload | apply extract_json_exhausted]; exact Hdepth.
Qed.

Lemma exhausted_payload_round_trip_witness :
  json_loads 2 (exhausted_payload (dq :: lit "quota\exceeded" ++ [dq; nl])) =
    Some (sentinel (dq :: lit "quota\exceeded" ++ [dq; nl])).
Proof.
  apply (exhausted_payload_round_trip 2 (dq :: lit "quota\exceeded" ++ [dq; nl])). lia.
Defined.

Section Exhausted.

Variable hash : pystr -> Z.
Variable float_of_str : wstr -> option float.
Variable unicode_lower : N -> wstr.
Variable depth_limit : nat.
Variable generate : nat -> pystr -> pystr -> outcome.

Hypothesis room : 2 <= depth_limit.

Lemma assemble_sentinel (error_msg : pystr) :
  assemble float_of_str unicode_lower (sentinel error_msg) =
    Ok {| timestamp := lit "2025-03-07 14:05:36";
          risk_level := SUSPICIOUS;
          confidence := 40.0;
          reasons := JArr [JStr (wlit "API error: Unable to analyze email")];
          recommended_action := JStr (wlit "Please examine the email carefully");
          analysis := jstr (lit "Error: " ++ error_msg) |}.
Proof. vm_compute. reflexivity. Qed.

(** X2. When the three attempts of a call that is not served from the cache
    fail and the last message does not mention a rate limit, the call
    returns a verdict all the same: Suspicious, confidence 40.0, the single
    reason "API error: Unable to analyze email", the last error message in
    the analysis; the three invocations are counted and the payload is
    stored in the cache. The decoder has room for the two containers of the
    payload. *)
Theorem analyze_email_exhausted (d : detector) (email_text e0 e1 e2 : pystr) :
  is_blank email_text = false ->
  debug d = true \/ _cache d !! hash (rendered_prompt email_text) = None ->
  generate (api_calls d) (lit "gemini-2.0-flash") (rendered_prompt email_text) = Failed e0 ->
  generate (S (api_calls d)) (lit "gemini-1.5-flash") (rendered_prompt email_text) = Failed e1 ->
  generate (S (S (api_calls d))) (lit "gemini-1.0-pro") (rendered_prompt email_text) = Failed e2 ->
  rate_limited e2 = false ->
  analyze_email hash float_of_str unicode_lower depth_limit generate d email_text =
    (Ok {| timestamp := lit "2025-03-07 14:05:36";
           risk_level := SUSPICIOUS;
           confidence := 40.0;
           reasons := JArr [JStr (wlit "API error: Unable to analyze email")];
           recommended_action := JStr (wlit "Please examine the email carefully");
           analysis := jstr (lit "Error: " ++ e2) |},
     cache_put (add_calls 3 d) (hash (rendered_prompt email_text)) (exhausted_payload e2),
     [Invoke (lit "gemini-2.0-flash") (rendered_prompt email_text); Sleep (pause 0 e0);
      Invoke (lit "gemini-1.5-flash") (rendered_prompt email_text); Sleep (pause 1 e1);
      Invoke (lit "gemini-1.0-pro") (rendered_prompt email_text)]).
Proof.
  intros Hnb Hmiss H0 H1 H2 Hrl.
  unfold analyze_email. rewrite Hnb.
  unfold rendered_prompt in *.
  destruct (_extract_email_parts email_text) as [[sender subject] body].
  set (prompt := _build_prompt sender subject body) in *.
  rewrite call_unrolled. cbv zeta. rewrite H0, H1, H2, Hrl.
  assert (Hgoal :
    (let '(response_text, d1, effects) :=
       (exhausted_payload e2,
        cache_put (add_calls 3 d) (hash prompt) (exhausted_payload e2),
        [Invoke (lit "gemini-2.0-flash") prompt; Sleep (pause 0 e0);
         Invoke (lit "gemini-1.5-flash") prompt; Sleep (pause 1 e1);
         Invoke (lit "gemini-1.0-pro") prompt]) in
     (assemble float_of_str unicode_lower (_extract_json depth_limit response_text), d1, effects)) =
    (Ok {| timestamp := lit "2025-03-07 14:05:36";
           risk_level := SUSPICIOUS;
           confidence := 40.0;
           reasons := JArr [JStr (wlit "API error: Unable to analyze email")];
           recommended_action := JStr (wlit "Please examine the email carefully");
           analysis := jstr (lit "Error: " ++ e2) |},
     cache_put (add_calls 3 d) (hash prompt) (exhausted_payload e2),
     [Invoke (lit "gemini-2.0-flash") prompt; Sleep (pause 0 e0);
      Invoke (lit "gemini-1.5-flash") prompt; Sleep (pause 1 e1);
      Invoke (lit "gemini-1.0-pro") prompt])).
  { cbv beta iota. rewrite (extract_json_exhausted depth_limit e2 room), assemble_sentinel.
    reflexivity. }
  destruct Hmiss as [Hd | Hnone].
  - rewrite Hd. cbn [negb]. destruct (_cache d !! hash prompt); exact Hgoal.
  - rewrite Hnone. exact Hgoal.
Qed.

End Exhausted.

Lemma analyze_email_exhausted_witness :
  analyze_email poly_hash no_float_of_str no_unicode_lower ample_depth (always_failing (lit "connection refused"))
    (new_detector false) sample_email =
  (Ok {| timestamp := lit "2025-03-07 14:05:36";
         risk_level := SUSPICIOUS;
         confidence := 40.0;
         reasons := JArr [JStr (wlit "API error: Unable to analyze email")];
         recommended_action := JStr (wlit "Please examine the email carefully");
         analysis := JStr (wlit "Error: connection refused") |},
   cache_put (add_calls 3 (new_detector false)) (poly_hash (rendered_prompt sample_email))
     (exhausted_payload (lit "connection refused")),
   [Invoke (lit "gemini-2.0-flash") (rendered_prompt sample_email); Sleep 1;
    Invoke (lit "gemini-1.5-flash") (rendered_prompt sample_email); Sleep 1;
    Invoke (lit "gemini-1.0-pro") (rendered_prompt sample_email)]).
Proof.
  apply (analyze_email_exhausted poly_hash no_float_of_str no_unicode_lower ample_depth
           (always_failing (lit "connection refused"))
           ltac:(vm_compute; lia)
           (new_detector false) sample_email
           (lit "connection refused") (lit "connection refused") (lit "connection refused"));
    [vm_compute; reflexivity | right; reflexivity | reflexivity | reflexivity | reflexivity
    | vm_compute; reflexivity].
Defined.

(** ** The call counter, the client's budget and the cache *)

Section Session.

Variable hash : pystr -> Z.
Variable float_of_str : wstr -> option float.
Variable unicode_lower : N -> wstr.
Variable depth_limit : nat.
Variable generate : nat -> pystr -> pystr -> outcome.

Lemma invocations_app (e1 e2 : list effect) :
  invocations (e1 ++ e2) = invocations e1 + invocations e2.
Proof.
  induction e1 as [| [model prompt | seconds] e1 IH]; cbn [app invocations]; lia.
Qed.

Lemma analyze_email_counts (d : detector) (email_text : pystr) :
  let '(r, d', effects) := analyze_email hash float_of_str unicode_lower depth_limit generate d email_text in
  api_calls d' = invocations effects + api_calls d /\ invocations effects <= 3.
Proof.
  unfold analyze_email. destruct (is_blank email_text); [cbn; lia |].
  destruct (_extract_email_parts email_text) as [[sender subject] body].
  set (prompt := _build_prompt sender subject body).
  pose proof (call_frame generate prompt d) as Hcall.
  destruct (_call_gemini_with_retry generate prompt d) as [[text d1] effects].
  destruct Hcall as (_ & _ & Hcount & Hcalls).
  destruct (_cache d !! hash prompt) as [cached |].
  - destruct (negb (debug d)); cbn [api_calls cache_put invocations]; lia.
  - cbn [api_calls cache_put]. lia.
Qed.

(** X5. Over a session the counter [api_calls] grows by exactly the number of
    remote invocations, which is at most three for each email; every email
    gets a result. *)
Theorem analyze_all_counts (emails : list pystr) (d : detector) :
  let '(rs, d', effects) := analyze_all hash float_of_str unicode_lower depth_limit generate d emails in
  api_calls d' = invocations effects + api_calls d /\
  invocations effects <= 3 * length emails /\
  length rs = length emails.
Proof.
  revert d. induction emails as [| email_text emails IH]; intros d.
  - cbn. lia.
  - cbn [analyze_all].
    pose proof (analyze_email_counts d email_text) as H1.
    destruct (analyze_email hash float_of_str unicode_lower depth_limit generate d email_text) as [[r d1] e1].
    pose proof (IH d1) as H2.
    destruct (analyze_all hash float_of_str unicode_lower depth_limit generate d1 emails) as [[rs d2] e2].
    rewrite invocations_app. cbn [length]. lia.
Qed.

(** X4. One call of the client invokes the remote capability between one and
    three times, asks the models in the order of the list, one model for
    each invocation, sleeps at most twelve seconds in all, and touches
    neither the cache nor the debug flag. *)
Theorem call_budget (prompt : pystr) (d : detector) :
  let '(text, d', effects) := _call_gemini_with_retry generate prompt d in
  1 <= invocations effects <= 3 /\
  models_asked effects = firstn (invocations effects) models_to_try /\
  total_sleep effects <= 12 /\
  api_calls d' = invocations effects + api_calls d /\
  _cache d' = _cache d /\ debug d' = debug d.
Proof.
  rewrite call_unrolled. cbv zeta.
  assert (H0 : forall e, pause 0 e <= 2) by (intros e; unfold pause; destruct (rate_limited e); cbn; lia).
  assert (H1 : forall e, pause 1 e <= 4) by (intros e; unfold pause; destruct (rate_limited e); cbn; lia).
  destruct (generate (api_calls d) _ prompt) as [t0 | e0].
  { cbn. split_and!; try reflexivity; lia. }
  destruct (generate (S (api_calls d)) _ prompt) as [t1 | e1].
  { cbn [invocations models_asked total_sleep add_calls api_calls _cache debug].
    pose proof (H0 e0). split_and!; try reflexivity; lia. }
  destruct (generate (S (S (api_calls d))) _ prompt) as [t2 | e2].
  { cbn [app invocations models_asked total_sleep add_calls api_calls _cache debug].
    pose proof (H0 e0). pose proof (H1 e1). split_and!; try reflexivity; lia. }
  destruct (rate_limited e2);
    cbn [app invocations models_asked total_sleep add_calls api_calls _cache debug];
    pose proof (H0 e0); pose proof (H1 e1); split_and!; try reflexivity; lia.
Qed.

(** X6. With the debug flag off, a session never changes the flag and never
    overwrites or drops an entry of the cache: the first answer stored for a
    prompt stays. *)
Theorem cache_entries_persist (emails : list pystr) (d : detector) (k : Z) (v : pystr) :
  debug d = false ->
  _cache d !! k = Some v ->
  let '(rs, d', effects) := analyze_all hash float_of_str unicode_lower depth_limit generate d emails in
  debug d' = false /\ _cache d' !! k = Some v.
Proof.
  intros Hd Hk.
  pose proof (analyze_all_cache_grows hash float_of_str unicode_lower depth_limit generate emails d Hd) as H.
  destruct (analyze_all hash float_of_str unicode_lower depth_limit generate d emails) as [[rs d'] effects].
  destruct H as [Hd' Hkeep]. split; [exact Hd' | exact (Hkeep k v Hk)].
Qed.

(** X7. With the debug flag on, every call on a non-blank text goes to the
    remote capability, whatever the cache holds, and stores the new answer
    under the hash of the prompt, in place of the one that was there. *)
Theorem debug_refreshes_cache (d : detector) (email_text : pystr) :
  debug d = true ->
  is_blank email_text = false ->
  let prompt := rendered_prompt email_text in
  let '(text, dc, ec) := _call_gemini_with_retry generate prompt d in
  analyze_email hash float_of_str unicode_lower depth_limit generate d email_text =
    (assemble float_of_str unicode_lower (_extract_json depth_limit text), cache_put dc (hash prompt) text, ec) /\
  1 <= invocations ec.
Proof.
  intros Hd Hnb. cbv zeta. unfold analyze_email, rendered_prompt. rewrite Hnb.
  destruct (_extract_email_parts email_text) as [[sender subject] body].
  set (prompt := _build_prompt sender subject body).
  pose proof (call_frame generate prompt d) as Hcall.
  destruct (_call_gemini_with_retry generate prompt d) as [[text dc] ec].
  destruct Hcall as (_ & _ & Hcount & _).
  rewrite Hd. cbn [negb].
  destruct (_cache d !! hash prompt); (split; [reflexivity | lia]).
Qed.

End Session.

Lemma cache_entries_persist_witness :
  let d := cache_put (new_detector false) 7 (lit "{}") in
  let '(rs, d', effects) :=
    analyze_all poly_hash no_float_of_str no_unicode_lower ample_depth (scripted [Returned sample_response]) d
      [sample_email; lit "hello"] in
  debug d' = false /\ _cache d' !! 7%Z = Some (lit "{}").
Proof.
  exact (cache_entries_persist poly_hash no_float_of_str no_unicode_lower ample_depth
           (scripted [Returned sample_response]) [sample_email; lit "hello"]
           (cache_put (new_detector false) 7 (lit "{}")) 7%Z (lit "{}") eq_refl eq_refl).
Defined.

Lemma debug_refreshes_cache_witness :
  let gen := scripted [Returned sample_response] in
  let d := cache_put (new_detector true) (poly_hash (rendered_prompt sample_email))
             list_response in
  let prompt := rendered_prompt sample_email in
  let '(text, dc, ec) := _call_gemini_with_retry gen prompt d in
  analyze_email poly_hash no_float_of_str no_unicode_lower ample_depth gen d sample_email =
    (assemble no_float_of_str no_unicode_lower (_extract_json ample_depth text), cache_put dc (poly_hash prompt) text, ec) /\
  1 <= invocations ec.
Proof.
  exact (debug_refreshes_cache poly_hash no_float_of_str no_unicode_lower ample_depth
           (scripted [Returned sample_response])
           (cache_put (new_detector true) (poly_hash (rendered_prompt sample_email))
              list_response)
           sample_email eq_refl ltac:(vm_compute; reflexivity)).
Defined.

(** ** Answers of other shapes *)

Section Shapes.

Variable hash : pystr -> Z.
Variable float_of_str : wstr -> option float.
Variable unicode_lower : N -> wstr.
Variable depth_limit : nat.
Variable generate : nat -> pystr -> pystr -> outcome.

(** X8. When the recovered answer is not an object (a list, a string, a
    number, [true], [null]), the call on a non-blank text returns no
    verdict: it raises AttributeError, after the answer was stored in the
    cache. *)
Theorem non_object_answer_raises (d d' : detector) (email_text response_text : pystr)
    (r : pyres verdict) (effects : list effect) :
  is_blank email_text = false ->
  analyze_email hash float_of_str unicode_lower depth_limit generate d email_text = (r, d', effects) ->
  _cache d' !! hash (rendered_prompt email_text) = Some response_text ->
  (forall members, _extract_json depth_limit response_text <> JObj members) ->
  r = Raise AttributeError.
Proof.
  intros Hnb Hcall Hkey Hshape.
  pose proof (analyze_email_store hash float_of_str unicode_lower depth_limit generate d email_text Hnb) as H.
  rewrite Hcall in H. cbv zeta in H.
  destruct H as (rt & Hrt & Hr & _).
  rewrite Hkey in Hrt. injection Hrt as <-.
  rewrite Hr. exact (assemble_non_object float_of_str unicode_lower _ Hshape).
Qed.

End Shapes.

Lemma non_object_answer_raises_witness :
  fst (fst (analyze_email poly_hash no_float_of_str no_unicode_lower ample_depth (scripted [Returned (lit "42")])
              (new_detector false) sample_email)) = Raise AttributeError.
Proof.
  destruct (analyze_email poly_hash no_float_of_str no_unicode_lower ample_depth (scripted [Returned (lit "42")])
              (new_detector false) sample_email) as [[r d'] effects] eqn:Hcall.
  cbn [fst].
  apply (non_object_answer_raises poly_hash no_float_of_str no_unicode_lower ample_depth
           (scripted [Returned (lit "42")]) (new_detector false) d' sample_email
           (lit "42") r effects);
    [vm_compute; reflexivity | exact Hcall | | intros members; vm_compute; discriminate].
  vm_compute in Hcall. injection Hcall as _ <- _. vm_compute. reflexivity.
Defined.

Section StringInsights.

Variable float_of_str : wstr -> option float.
Variable unicode_lower : N -> wstr.

(** No keyword is found in a text of one character. *)
Lemma keyword_loop_one_char (c : ascii) (score : json) :
  keyword_loop danger_keywords (wlower unicode_lower [cp c]) score = Ok score.
Proof.
  change [cp c] with (wide [c]). rewrite wlower_wide.
  unfold danger_keywords, wlit, wide.
  cbn [map lit list_ascii_of_string lower keyword_loop wcontains wstartswith].
  rewrite !andb_false_r. reflexivity.
Qed.

Lemma insight_loop_chars (s : pystr) (score : json) :
  insight_loop unicode_lower (map (fun c => JStr [c]) (wide s)) score = Ok score.
Proof.
  induction s as [| c s IH]; [reflexivity |].
  cbn [wide map insight_loop py_lower bind]. rewrite keyword_loop_one_char. cbn [bind].
  exact IH.
Qed.

(** X9. When the insights of the answer are one string (of characters up to
    U+00FF) instead of a list of strings, its characters are scanned one by one, so that no keyword is
    ever found and the level is that of the likelihood alone; the reasons of
    the verdict are the first five characters of the string. *)
Theorem string_insights_never_boost (members : list (wstr * json)) (likelihood : float)
    (s : pystr) :
  dict_get (wlit "phishing_likelihood") members = Some (JFloat likelihood) ->
  dict_get (wlit "insights") members = Some (jstr s) ->
  _calc_risk_level unicode_lower (JObj members) = Ok (level_of (clamped likelihood)) /\
  exists v, assemble float_of_str unicode_lower (JObj members) = Ok v /\
    risk_level v = level_of (clamped likelihood) /\
    reasons v = jstr (firstn 5 s).
Proof.
  intros Hlik Hins.
  assert (Hlevel : _calc_risk_level unicode_lower (JObj members) =
                     Ok (level_of (clamped likelihood))).
  { unfold _calc_risk_level, phish_score_of, py_get. cbn [bind]. rewrite Hlik, Hins.
    unfold jstr. cbn [py_iter bind]. rewrite insight_loop_chars. cbn [bind].
    unfold py_min. cbn [py_float_lt bind].
    replace (if (1.0 <? likelihood)%float then JFloat 1.0 else JFloat likelihood)
      with (JFloat (clamped likelihood))
      by (unfold clamped; destruct (1.0 <? likelihood)%float; reflexivity).
    cbn [py_lt_float bind]. unfold level_of.
    destruct (clamped likelihood <? 0.35)%float; [reflexivity |].
    cbn [py_lt_float bind].
    destruct (clamped likelihood <? 0.65)%float; reflexivity. }
  split; [exact Hlevel |].
  unfold assemble. rewrite Hlevel. unfold py_get. cbn [bind]. rewrite Hins.
  unfold jstr. cbn [py_slice5 bind]. eexists. split; [reflexivity |].
  split; [reflexivity |]. cbn [reasons]. unfold wide. rewrite firstn_map. reflexivity.
Qed.

End StringInsights.

Lemma string_insights_never_boost_witness :
  _calc_risk_level no_unicode_lower
    (JObj [ (wlit "phishing_likelihood", JFloat 0.3);
            (wlit "insights", jstr (lit "urgent: verify your password")) ]) = Ok SAFE.
Proof.
  destruct (string_insights_never_boost no_float_of_str no_unicode_lower
              [ (wlit "phishing_likelihood", JFloat 0.3);
                (wlit "insights", jstr (lit "urgent: verify your password")) ]
              0.3%float (lit "urgent: verify your password") eq_refl eq_refl)
    as [H _].
  rewrite H. vm_compute. reflexivity.
Defined.

(** The score is the likelihood plus 0.1 as many times as there are
    insights that mention a keyword. *)
Lemma accumulated_matching (insights : list pystr) (likelihood : float) :
  accumulated likelihood insights =
    Nat.iter (matching insights) (fun score => (score + 0.1)%float) likelihood.
Proof.
  unfold accumulated. revert likelihood.
  induction insights as [| insight insights IH]; intros likelihood; [reflexivity |].
  cbn [fold_left matching]. rewrite IH. unfold boost.
  destruct (mentions_keyword insight); [| reflexivity].
  cbn [Nat.add]. rewrite Nat.iter_succ_r. reflexivity.
Qed.

(** X10. For a float likelihood and insights that are strings of characters
    up to U+00FF, the level depends on the insights only through the number
    of them that mention a keyword: two lists with the same number give the
    same level, whatever their order and their other insights. *)
Theorem level_depends_on_matching (unicode_lower : N -> wstr) (likelihood : float)
    (insights insights' : list pystr) :
  matching insights = matching insights' ->
  _calc_risk_level unicode_lower
    (JObj [ (wlit "phishing_likelihood", JFloat likelihood);
            (wlit "insights", JArr (map jstr insights)) ]) =
  _calc_risk_level unicode_lower
    (JObj [ (wlit "phishing_likelihood", JFloat likelihood);
            (wlit "insights", JArr (map jstr insights')) ]).
Proof.
  intros H.
  rewrite (calc_risk_level_on_shape unicode_lower
             [ (wlit "phishing_likelihood", JFloat likelihood);
               (wlit "insights", JArr (map jstr insights)) ]
             likelihood insights (or_introl eq_refl) (or_introl eq_refl)).
  rewrite (calc_risk_level_on_shape unicode_lower
             [ (wlit "phishing_likelihood", JFloat likelihood);
               (wlit "insights", JArr (map jstr insights')) ]
             likelihood insights' (or_introl eq_refl) (or_introl eq_refl)).
  rewrite !accumulated_matching, H. reflexivity.
Qed.

Lemma level_depends_on_matching_witness :
  _calc_risk_level no_unicode_lower
    (JObj [ (wlit "phishing_likelihood", JFloat 0.3);
            (wlit "insights", JArr (map jstr [lit "Urgent tone"; lit "Odd greeting"])) ]) =
  _calc_risk_level no_unicode_lower
    (JObj [ (wlit "phishing_likelihood", JFloat 0.3);
            (wlit "insights", JArr (map jstr [lit "Bad grammar"; lit "Login link: verify account";
                                             lit "Unknown sender"])) ]).
Proof.
  apply (level_depends_on_matching no_unicode_lower 0.3%float
           [lit "Urgent tone"; lit "Odd greeting"]
           [lit "Bad grammar"; lit "Login link: verify account"; lit "Unknown sender"]).
  vm_compute. reflexivity.
Defined.

(** ** Prose around the object *)

Lemma last_close_none (q : pystr) :
  Forall (fun c => Ascii.eqb "}" c = false) q -> last_close q = None.
Proof.
  induction 1 as [| c q Hc _ IH]; [reflexivity |].
  cbn [last_close]. rewrite IH, Hc. reflexivity.
Qed.

Lemma last_close_app (s q : pystr) :
  Forall (fun c => Ascii.eqb "}" c = false) q ->
  last_close (s ++ "}"%char :: q) = Some (length s).
Proof.
  intros Hq. induction s as [| c s IH].
  - cbn [app last_close length]. rewrite (last_close_none q Hq). reflexivity.
  - cbn [app last_close length]. rewrite IH. reflexivity.
Qed.

Lemma brace_span_around (p s q : pystr) :
  Forall (fun c => Ascii.eqb "{" c = false) p ->
  Forall (fun c => Ascii.eqb "}" c = false) q ->
  brace_span (p ++ "{"%char :: s ++ "}"%char :: q) = Some ("{"%char :: s ++ ["}"%char]).
Proof.
  intros Hp Hq. induction Hp as [| c p Hc _ IH].
  - cbn [app brace_span]. change (Ascii.eqb "{" "{") with true. cbv iota.
    rewrite (last_close_app s q Hq).
    replace (firstn (S (length s)) (s ++ "}"%char :: q)) with (s ++ ["}"%char]);
      [reflexivity |].
    replace (S (length s)) with (length (s ++ ["}"%char]))
      by (rewrite length_app; cbn [length]; lia).
    change ("}"%char :: q) with (["}"%char] ++ q). rewrite app_assoc.
    rewrite firstn_app, firstn_all, Nat.sub_diag. cbn [firstn]. rewrite app_nil_r.
    reflexivity.
  - cbn [app brace_span]. rewrite Hc. exact IH.
Qed.

(** X11. An object that parses is recovered from the prose around it: when the
    text before it has no opening brace and the text after it has no closing
    brace, and the whole does not parse, the recoverer returns the object. *)
Theorem extract_json_ignores_prose (depth : nat) (p s q : pystr) (v : json) :
  Forall (fun c => Ascii.eqb "{" c = false) p ->
  Forall (fun c => Ascii.eqb "}" c = false) q ->
  json_loads depth (p ++ "{"%char :: s ++ "}"%char :: q) = None ->
  json_loads depth ("{"%char :: s ++ ["}"%char]) = Some v ->
  _extract_json depth (p ++ "{"%char :: s ++ "}"%char :: q) = v.
Proof.
  intros Hp Hq Hwhole Hobj.
  pose proof (brace_span_around p s q Hp Hq) as Hspan.
  pose proof (search_brace (p ++ "{"%char :: s ++ "}"%char :: q)) as Hsearch.
  unfold _extract_json.
  destruct (p ++ "{"%char :: s ++ "}"%char :: q) as [| c t] eqn:Htext.
  - destruct p; discriminate Htext.
  - rewrite Hwhole.
    destruct (search brace_re (c :: t)) as [m |].
    + rewrite Hspan in Hsearch. injection Hsearch as <-. rewrite Hobj. reflexivity.
    + rewrite Hspan in Hsearch. discriminate Hsearch.
Qed.

Lemma extract_json_ignores_prose_witness :
  _extract_json ample_depth (fenced_open ++ "{"%char :: fenced_body ++ "}"%char :: fenced_close) =
    JObj [ (wlit "phishing_likelihood", JFloat 0.9); (wlit "insights", JArr []) ].
Proof.
  apply (extract_json_ignores_prose ample_depth fenced_open fenced_body fenced_close).
  - vm_compute. repeat constructor.
  - vm_compute. repeat constructor.
  - vm_compute. reflexivity.
  - vm_compute. reflexivity.
Defined.

(** ** The shape of the extracted fields *)

Lemma part_of_refl (s : pystr) : part_of s s.
Proof. exists [], []. rewrite app_nil_r. reflexivity. Qed.

Lemma part_of_trans (x y z : pystr) : part_of x y -> part_of y z -> part_of x z.
Proof.
  intros (a & b & ->) (a' & b' & ->). exists (a' ++ a), (b ++ b').
  rewrite <- !app_assoc. reflexivity.
Qed.

Lemma part_of_skipn (n : nat) (s : pystr) : part_of (skipn n s) s.
Proof.
  exists (firstn n s), []. rewrite app_nil_r, firstn_skipn. reflexivity.
Qed.

Lemma part_of_lstrip (s : pystr) : part_of (lstrip s) s.
Proof.
  rewrite <- (lstrip_skipn s). apply part_of_skipn.
Qed.

Lemma part_of_rev (x s : pystr) : part_of x s -> part_of (rev x) (rev s).
Proof.
  intros (a & b & ->). exists (rev b), (rev a).
  rewrite !rev_app_distr, <- app_assoc. reflexivity.
Qed.

Lemma part_of_rstrip (s : pystr) : part_of (rstrip s) s.
Proof.
  unfold rstrip. rewrite <- (rev_involutive s) at 2.
  apply part_of_rev, part_of_lstrip.
Qed.

Lemma part_of_strip (s : pystr) : part_of (strip s) s.
Proof.
  unfold strip. exact (part_of_trans _ _ _ (part_of_rstrip _) (part_of_lstrip s)).
Qed.

Lemma part_of_line_of (s : pystr) : part_of (line_of s) s.
Proof.
  exists [], (skipn (length (line_of s)) s). cbn [app].
  rewrite <- (firstn_skipn (length (line_of s)) s) at 1.
  rewrite line_of_firstn. reflexivity.
Qed.

Lemma part_of_Forall (P : ascii -> Prop) (x s : pystr) :
  part_of x s -> Forall P s -> Forall P x.
Proof.
  intros (a & b & ->) H. apply Forall_app in H as [_ H].
  apply Forall_app in H as [H _]. exact H.
Qed.

Lemma line_of_no_newline (s : pystr) : Forall (fun c => c <> nl) (line_of s).
Proof.
  induction s as [| c s IH]; cbn [line_of]; [constructor |].
  destruct (Ascii.eqb_spec c nl); [constructor |]. constructor; assumption.
Qed.

Lemma lstrip_idem (s : pystr) : lstrip (lstrip s) = lstrip s.
Proof.
  induction s as [| c s IH]; [reflexivity |].
  cbn [lstrip]. destruct (isspace c) eqn:Hc; [exact IH |].
  cbn [lstrip]. rewrite Hc. reflexivity.
Qed.

Lemma rstrip_idem (s : pystr) : rstrip (rstrip s) = rstrip s.
Proof.
  unfold rstrip. rewrite rev_involutive, lstrip_idem. reflexivity.
Qed.

Lemma rstrip_snoc (s : pystr) (x : ascii) :
  rstrip (s ++ [x]) = if isspace x then rstrip s else s ++ [x].
Proof.
  unfold rstrip. rewrite rev_app_distr. cbn [rev app lstrip].
  destruct (isspace x); [reflexivity |].
  cbn [rev]. rewrite rev_involutive. reflexivity.
Qed.

Lemma rstrip_keeps_head (c : ascii) (t : pystr) :
  isspace c = false -> exists t', rstrip (c :: t) = c :: t'.
Proof.
  intros Hc. induction t as [| x t IH] using rev_ind.
  - exists []. unfold rstrip. cbn [rev app lstrip]. rewrite Hc. reflexivity.
  - change (c :: t ++ [x]) with ((c :: t) ++ [x]). rewrite rstrip_snoc.
    destruct (isspace x); [exact IH |]. exists (t ++ [x]). reflexivity.
Qed.

(** [strip] applied twice is [strip]. *)
Lemma strip_idem (s : pystr) : strip (strip s) = strip s.
Proof.
  unfold strip.
  destruct (lstrip s) as [| c t] eqn:Hu; [reflexivity |].
  assert (Hc : isspace c = false).
  { destruct s as [| x s']; [discriminate |].
    pose proof (lstrip_idem (x :: s')) as Hi. rewrite Hu in Hi.
    cbn [lstrip] in Hi. destruct (isspace c); [| reflexivity].
    exfalso. pose proof (lstrip_length t) as Hle.
    apply (f_equal (@length ascii)) in Hi. cbn [length] in Hi. lia. }
  destruct (rstrip_keeps_head c t Hc) as [t' Ht'].
  rewrite Ht'. cbn [lstrip]. rewrite Hc. rewrite <- Ht'. apply rstrip_idem.
Qed.

Lemma extract_email_parts_eq (raw_text : pystr) :
  _extract_email_parts raw_text = extract_direct raw_text.
Proof.
  unfold _extract_email_parts, extract_direct. cbv zeta.
  pose proof (search_header "From:" raw_text) as Hfrom.
  pose proof (search_header "Subject:" raw_text) as Hsubj.
  destruct (search (header_re "From:") raw_text) as [mf |];
    destruct (search (header_re "Subject:") raw_text) as [ms |].
  - destruct Hfrom as [-> Hf], Hsubj as [-> Hs]. cbn [Nat.max].
    change (length (lit "From:")) with 5 in Hf.
    replace (0 <? Nat.max (m_end mf) (m_end ms)) with true
      by (symmetry; apply Nat.ltb_lt; lia).
    reflexivity.
  - destruct Hfrom as [-> Hf]. rewrite Hsubj. cbn [Nat.max].
    change (length (lit "From:")) with 5 in Hf.
    replace (0 <? m_end mf) with true by (symmetry; apply Nat.ltb_lt; lia).
    rewrite Nat.max_0_r. reflexivity.
  - destruct Hsubj as [-> Hs]. rewrite Hfrom. cbn [Nat.max].
    change (length (lit "Subject:")) with 8 in Hs.
    replace (0 <? m_end ms) with true by (symmetry; apply Nat.ltb_lt; lia).
    reflexivity.
  - rewrite Hfrom, Hsubj. reflexivity.
Qed.

Lemma header_field_value (name : string) (text v : pystr) (e : nat) :
  header_field name text = Some (v, e) ->
  strip v = v /\ Forall (fun c => c <> nl) v /\ part_of v text.
Proof.
  unfold header_field.
  destruct (first_header (lit name) 0 text) as [[j r] |] eqn:Hfirst; [| discriminate].
  cbv zeta. intros H. injection H as <- _.
  destruct (first_header_skipn _ _ _ _ _ Hfirst) as [_ ->].
  split_and!.
  - apply strip_idem.
  - exact (part_of_Forall _ _ _ (part_of_strip _) (line_of_no_newline _)).
  - refine (part_of_trans _ _ _ (part_of_strip _) _).
    refine (part_of_trans _ _ _ (part_of_line_of _) _).
    refine (part_of_trans _ _ _ (part_of_lstrip _) _).
    apply part_of_skipn.
Qed.

Lemma unknown_value :
  strip (lit "unknown") = lit "unknown" /\ Forall (fun c => c <> nl) (lit "unknown").
Proof.
  split; [vm_compute; reflexivity |].
  repeat (constructor; [intros H; vm_compute in H; discriminate H |]). constructor.
Qed.

(** X12. The sender and the subject that the extractor returns hold no newline
    and neither begin nor end with white space; each is the word "unknown"
    or a contiguous piece of the input; the body is a contiguous piece of
    the input, the whole of it or a piece without white space at its ends.
    The extractor invents no text. *)
Theorem extract_parts_shape (raw_text : pystr) :
  let '(sender, subject, body) := _extract_email_parts raw_text in
  Forall (fun c => c <> nl) sender /\ Forall (fun c => c <> nl) subject /\
  strip sender = sender /\ strip subject = subject /\
  (sender = lit "unknown" \/ part_of sender raw_text) /\
  (subject = lit "unknown" \/ part_of subject raw_text) /\
  part_of body raw_text /\
  (body = raw_text \/ strip body = body).
Proof.
  rewrite extract_email_parts_eq. unfold extract_direct. cbv zeta.
  destruct unknown_value as [Hu1 Hu2].
  pose proof (header_field_value "From:" raw_text) as Hf.
  pose proof (header_field_value "Subject:" raw_text) as Hs.
  assert (Hbody : forall n, part_of (strip (skipn n raw_text)) raw_text).
  { intros n. exact (part_of_trans _ _ _ (part_of_strip _) (part_of_skipn n raw_text)). }
  destruct (header_field "From:" raw_text) as [[vf ef] |];
    destruct (header_field "Subject:" raw_text) as [[vs es] |].
  - destruct (Hf vf ef eq_refl) as (? & ? & ?), (Hs vs es eq_refl) as (? & ? & ?).
    split_and!; auto using strip_idem.
  - destruct (Hf vf ef eq_refl) as (? & ? & ?).
    split_and!; auto using strip_idem.
  - destruct (Hs vs es eq_refl) as (? & ? & ?).
    split_and!; auto using strip_idem.
  - split_and!; auto using part_of_refl.
Qed.

(** ** Truncation and the rate-limited exit *)

(** X13. Of a body of more than 5000 characters only the first 5000 reach the
    prompt: two emails with the same sender and subject whose long bodies
    agree on their first 5000 characters render the same prompt, and so
    share their cache entry and their answer. *)
Theorem truncated_tail_is_ignored (text1 text2 sender subject body1 body2 : pystr) :
  _extract_email_parts text1 = (sender, subject, body1) ->
  _extract_email_parts text2 = (sender, subject, body2) ->
  5000 < length body1 ->
  5000 < length body2 ->
  firstn 5000 body1 = firstn 5000 body2 ->
  rendered_prompt text1 = rendered_prompt text2.
Proof.
  intros H1 H2 Hl1 Hl2 Heq. unfold rendered_prompt. rewrite H1, H2.
  unfold _build_prompt, max_body_len.
  rewrite (proj2 (Nat.ltb_lt _ _) Hl1), (proj2 (Nat.ltb_lt _ _) Hl2), Heq.
  reflexivity.
Qed.

(** The text of an empty object is decoded as soon as the decoder may enter
    one container. *)
Lemma extract_json_empty_object (depth : nat) :
  1 <= depth -> _extract_json depth (lit "{}") = JObj [].
Proof.
  intros Hdepth. destruct depth as [| depth]; [lia | reflexivity].
Qed.

Section RateLimitedOut.

Variable hash : pystr -> Z.
Variable float_of_str : wstr -> option float.
Variable unicode_lower : N -> wstr.
Variable depth_limit : nat.
Variable generate : nat -> pystr -> pystr -> outcome.

(** X3. When the three attempts of a call that is not served from the cache
    fail and the last message mentions a rate limit, the client sleeps six
    more seconds and the call returns the verdict of an empty answer:
    Suspicious, confidence 50.0, no reason, the recommendation "Review email
    carefully" and an empty analysis; the error message is lost and the
    text of an empty object is stored in the cache. The decoder has room
    for one container. *)
Theorem analyze_email_rate_limited_out (d : detector) (email_text e0 e1 e2 : pystr) :
  1 <= depth_limit ->
  is_blank email_text = false ->
  debug d = true \/ _cache d !! hash (rendered_prompt email_text) = None ->
  generate (api_calls d) (lit "gemini-2.0-flash") (rendered_prompt email_text) = Failed e0 ->
  generate (S (api_calls d)) (lit "gemini-1.5-flash") (rendered_prompt email_text) = Failed e1 ->
  generate (S (S (api_calls d))) (lit "gemini-1.0-pro") (rendered_prompt email_text) = Failed e2 ->
  rate_limited e2 = true ->
  analyze_email hash float_of_str unicode_lower depth_limit generate d email_text =
    (Ok {| timestamp := lit "2025-03-07 14:05:36";
           risk_level := SUSPICIOUS;
           confidence := 50.0;
           reasons := JArr [];
           recommended_action := JStr (wlit "Review email carefully");
           analysis := JStr [] |},
     cache_put (add_calls 3 d) (hash (rendered_prompt email_text)) (lit "{}"),
     [Invoke (lit "gemini-2.0-flash") (rendered_prompt email_text); Sleep (pause 0 e0);
      Invoke (lit "gemini-1.5-flash") (rendered_prompt email_text); Sleep (pause 1 e1);
      Invoke (lit "gemini-1.0-pro") (rendered_prompt email_text); Sleep 6]).
Proof.
  intros Hroom Hnb Hmiss H0 H1 H2 Hrl.
  unfold analyze_email. rewrite Hnb.
  unfold rendered_prompt in *.
  destruct (_extract_email_parts email_text) as [[sender subject] body].
  set (prompt := _build_prompt sender subject body) in *.
  rewrite call_unrolled. cbv zeta. rewrite H0, H1, H2, Hrl.
  assert (Hempty : assemble float_of_str unicode_lower (_extract_json depth_limit (lit "{}")) =
    Ok {| timestamp := lit "2025-03-07 14:05:36";
          risk_level := SUSPICIOUS;
          confidence := 50.0;
          reasons := JArr [];
          recommended_action := JStr (wlit "Review email carefully");
          analysis := JStr [] |})
    by (rewrite (extract_json_empty_object depth_limit Hroom); reflexivity).
  destruct Hmiss as [Hd | Hnone].
  - rewrite Hd. cbn [negb].
    destruct (_cache d !! hash prompt); cbv beta iota; rewrite Hempty; reflexivity.
  - rewrite Hnone. cbv beta iota. rewrite Hempty. reflexivity.
Qed.

End RateLimitedOut.

Lemma analyze_email_rate_limited_out_witness :
  analyze_email poly_hash no_float_of_str no_unicode_lower ample_depth
    (always_failing (lit "Rate limit reached")) (new_detector false) sample_email =
  (Ok {| timestamp := lit "2025-03-07 14:05:36";
         risk_level := SUSPICIOUS;
         confidence := 50.0;
         reasons := JArr [];
         recommended_action := JStr (wlit "Review email carefully");
         analysis := JStr [] |},
   cache_put (add_calls 3 (new_detector false)) (poly_hash (rendered_prompt sample_email))
     (lit "{}"),
   [Invoke (lit "gemini-2.0-flash") (rendered_prompt sample_email); Sleep 2;
    Invoke (lit "gemini-1.5-flash") (rendered_prompt sample_email); Sleep 4;
    Invoke (lit "gemini-1.0-pro") (rendered_prompt sample_email); Sleep 6]).
Proof.
  apply (analyze_email_rate_limited_out poly_hash no_float_of_str no_unicode_lower ample_depth
           (always_failing (lit "Rate limit reached")) (new_detector false) sample_email
           (lit "Rate limit reached") (lit "Rate limit reached") (lit "Rate limit reached"));
    [vm_compute; lia | vm_compute; reflexivity | right; reflexivity | reflexivity
    | reflexivity | reflexivity | vm_compute; reflexivity].
Defined.

Lemma truncated_tail_is_ignored_witness :
  rendered_prompt (long_email "click here") = rendered_prompt (long_email "all is well").
Proof.
  apply (truncated_tail_is_ignored (long_email "click here") (long_email "all is well")
           (lit "a@b.com") (lit "Hi")
           (repeat "x"%char 5000 ++ lit "click here")
           (repeat "x"%char 5000 ++ lit "all is well")).
  - vm_compute. reflexivity.
  - vm_compute. reflexivity.
  - rewrite length_app, repeat_length. cbn [lit list_ascii_of_string length]. lia.
  - rewrite length_app, repeat_length. cbn [lit list_ascii_of_string length]. lia.
  - rewrite !firstn_app, !repeat_length, !Nat.sub_diag. cbn [firstn]. reflexivity.
Defined.

(** ** The password checker *)

Module PassGenFacts.
Import PassGen.

(** [re.search] of a one-character class. *)
Lemma search_from_class (p : ascii -> bool) (s : pystr) (i : nat) :
  match search_from (RChar p) i s with
  | Some _ => existsb p s = true
  | None => existsb p s = false
  end.
Proof.
  revert i. induction s as [| c s IH]; intros i; [reflexivity |].
  cbn [search_from existsb]. unfold match_at. rewrite run_char. cbn [rest].
  destruct (p c); [reflexivity |]. exact (IH (S i)).
Qed.

Lemma found_class (p : ascii -> bool) (s : pystr) : found (RChar p) s = existsb p s.
Proof.
  unfold found, search. pose proof (search_from_class p s 0) as H.
  destruct (search_from (RChar p) 0 s); rewrite H; reflexivity.
Qed.

(** X14. The label and the advice agree: a password without advice is Strong,
    a Strong one has at most three pieces of advice, a Moderate one from two
    to four, a Weak one at least three; there is no other label. *)
Theorem check_strength_advice (password : pystr) :
  let '(strength, insights) := check_strength password in
  (strength = lit "Strong" \/ strength = lit "Moderate" \/ strength = lit "Weak") /\
  (insights = [] -> strength = lit "Strong") /\
  (strength = lit "Strong" -> length insights <= 3) /\
  (strength = lit "Moderate" -> 2 <= length insights <= 4) /\
  (strength = lit "Weak" -> 3 <= length insights <= 7).
Proof.
  unfold check_strength, get_security_insights. cbv zeta.
  rewrite (Nat.ltb_antisym 12 (length password)).
  assert (Hsm : lit "Strong" <> lit "Moderate") by discriminate.
  assert (Hsw : lit "Strong" <> lit "Weak") by discriminate.
  assert (Hmw : lit "Moderate" <> lit "Weak") by discriminate.
  revert Hsm Hsw Hmw.
  generalize (lit "Strong"), (lit "Moderate"), (lit "Weak").
  generalize (lit "Consider using at least 12 characters."),
    (lit "Include at least one uppercase letter."),
    (lit "Include at least one lowercase letter."),
    (lit "Include at least one number."),
    (lit "Include at least one special character."),
    (lit "Avoid repeating characters."),
    (lit "Avoid using too many similar characters.").
  intros a1 a2 a3 a4 a5 a6 a7 strong moderate weak Hsm Hsw Hmw.
  destruct (12 <=? length password), (found (RChar is_upper) password),
    (found (RChar is_lower) password), (found (RChar is_digit) password),
    (found (RChar is_special) password), (has_triple password),
    (2 * distinct password <? length password);
    cbn [negb app sum_bools fold_left Nat.add Nat.leb Nat.eqb length];
    (split_and!;
       [ tauto
       | intros H; first [reflexivity | discriminate H]
       | intros H; first [lia | congruence]
       | intros H; first [lia | congruence]
       | intros H; first [lia | congruence] ]).
Qed.

(** X15. A password of lowercase letters only is Weak, however long it is. *)
Theorem lowercase_only_is_weak (password : pystr) :
  Forall (fun c => is_lower c = true) password ->
  fst (check_strength password) = lit "Weak".
Proof.
  intros H. unfold check_strength. cbv zeta. cbn [fst].
  rewrite !found_class.
  assert (Hnone : forall p : ascii -> bool,
            (forall c, is_lower c = true -> p c = false) -> existsb p password = false).
  { intros p Hp. induction H as [| c s Hc _ IH]; [reflexivity |].
    cbn [existsb]. rewrite (Hp c Hc), IH. reflexivity. }
  assert (Hclass : forall c, is_lower c = true ->
            is_upper c = false /\ is_digit c = false /\ is_special c = false).
  { intros c. destruct c as [b0 b1 b2 b3 b4 b5 b6 b7].
    destruct b0, b1, b2, b3, b4, b5, b6, b7; vm_compute; intros Hc;
      first [discriminate Hc | repeat split]. }
  rewrite (Hnone is_upper (fun c Hc => proj1 (Hclass c Hc))).
  rewrite (Hnone is_digit (fun c Hc => proj1 (proj2 (Hclass c Hc)))).
  rewrite (Hnone is_special (fun c Hc => proj2 (proj2 (Hclass c Hc)))).
  destruct (12 <=? length password), (existsb is_lower password); reflexivity.
Qed.

(** X16. A password of at least twelve characters with an uppercase letter, a
    lowercase letter, a digit and a special character is Strong, and the
    only advice it can get is about repeated or similar characters. *)
Theorem all_criteria_is_strong (password : pystr) (u l n s : ascii) :
  12 <= length password ->
  In u password -> is_upper u = true ->
  In l password -> is_lower l = true ->
  In n password -> is_digit n = true ->
  In s password -> is_special s = true ->
  fst (check_strength password) = lit "Strong" /\
  forall insight, In insight (snd (check_strength password)) ->
    insight = lit "Avoid repeating characters." \/
    insight = lit "Avoid using too many similar characters.".
Proof.
  intros Hlen Hu1 Hu2 Hl1 Hl2 Hn1 Hn2 Hs1 Hs2.
  unfold check_strength, get_security_insights. cbv zeta. cbn [fst snd].
  rewrite (Nat.ltb_antisym 12 (length password)).
  rewrite (proj2 (Nat.leb_le _ _) Hlen). rewrite !found_class.
  assert (Hex : forall (p : ascii -> bool) c, In c password -> p c = true ->
            existsb p password = true).
  { intros p c Hin Hp. apply existsb_exists. exists c. split; assumption. }
  rewrite (Hex is_upper u Hu1 Hu2), (Hex is_lower l Hl1 Hl2),
    (Hex is_digit n Hn1 Hn2), (Hex is_special s Hs1 Hs2).
  split; [reflexivity |].
  cbn [negb].
  destruct (has_triple password), (2 * distinct password <? length password);
    cbn [app]; intros insight Hin; cbn [In] in Hin; intuition.
Qed.

End PassGenFacts.

Lemma lowercase_only_is_weak_witness :
  fst (PassGen.check_strength (lit "correcthorsebatterystaple")) = lit "Weak".
Proof.
  apply PassGenFacts.lowercase_only_is_weak. vm_compute. repeat constructor.
Defined.

Lemma all_criteria_is_strong_witness :
  fst (PassGen.check_strength (lit "Tr0ub4dor&3xyz")) = lit "Strong".
Proof.
  apply (proj1 (PassGenFacts.all_criteria_is_strong (lit "Tr0ub4dor&3xyz")
                  "T"%char "r"%char "0"%char "&"%char
                  ltac:(vm_compute; lia)
                  ltac:(vm_compute; tauto) eq_refl
                  ltac:(vm_compute; tauto) eq_refl
                  ltac:(vm_compute; tauto) eq_refl
                  ltac:(vm_compute; tauto) eq_refl)).
Defined.

(** ** The repair of keys *)

Lemma quote_keys_from_unchanged (pending s : pystr) :
  colon_after_word (negb (PyStr.eqb pending [])) s = false ->
  quote_keys_from pending s = rev pending ++ s.
Proof.
  revert pending. induction s as [| c s IH]; intros pending H.
  - cbn [quote_keys_from]. rewrite app_nil_r. reflexivity.
  - cbn [colon_after_word] in H. apply orb_false_elim in H as [Hc Hrest].
    cbn [quote_keys_from]. destruct (isword c) eqn:Hw.
    + rewrite (IH (c :: pending) Hrest). cbn [rev]. rewrite <- app_assoc. reflexivity.
    + rewrite andb_comm, Hc. rewrite (IH [] Hrest). reflexivity.
Qed.

(** X17. The substitution that quotes bare keys changes nothing in a text where
    no colon directly follows a word character, as in an object whose keys
    are all between double quotes already. *)
Theorem key_repair_leaves_quoted_keys (s : pystr) :
  colon_after_word false s = false ->
  sub key_re quote_key s = s.
Proof.
  intros H. rewrite sub_key. unfold quote_keys.
  exact (quote_keys_from_unchanged [] s H).
Qed.

Lemma key_repair_leaves_quoted_keys_witness :
  sub key_re quote_key ("{"%char :: fenced_body ++ lit "}") =
    "{"%char :: fenced_body ++ lit "}".
Proof.
  apply key_repair_leaves_quoted_keys. vm_compute. reflexivity.
Defined.
